(** * Zomato AI recommender: retrieval engine and grounded LLM layer

    A shallow embedding of [phase_2/retrieval.py], [phase_3/client.py],
    [phase_3/prompt_templates.py] and [phase_3/llm_recommender.py], with the
    properties of the field normalizers, the preference filter, the ranker
    and the response parser.

    Conventions.
    - Text is a [string] and stands for a [str] of ASCII characters; the
      Python methods used by the code ([strip], [upper], [lower], [split],
      [replace], [find], [rfind], slicing) are written out on it.  White
      space, digits and letter case are those of the ASCII range: a text
      with other characters is outside the model.
    - An [int] is a [Z].  A [float] is a value of an abstract type carrying
      the [PyFloat] operations, so that no statement depends on binary64
      rounding; [xfloat] is an exact instance used to run examples.
    - A raised exception is a value of [exn]; fallible code returns a
      [result].  Code that reads the environment or talks to the network
      runs in the monad [M], which records every network request. *)

From Stdlib Require Import String Ascii List ZArith Lia Bool QArith DecimalString.
From Stdlib Require Import Sorting.Sorted Sorting.Permutation.
Import ListNotations.

Local Open Scope string_scope.
Local Open Scope Z_scope.

Set Implicit Arguments.

(* ------------------------------------------------------------------ *)
(** ** Python text primitives *)

Module PyText.

(** [str.isspace] on the ASCII range: tab, LF, VT, FF, CR, the four
    separators 0x1c-0x1f and the space. *)
Definition is_space (c : ascii) : bool :=
  let n := nat_of_ascii c in
  ((9 <=? n) && (n <=? 13) || (28 <=? n) && (n <=? 32))%nat.

Definition is_digit (c : ascii) : bool :=
  let n := nat_of_ascii c in ((48 <=? n) && (n <=? 57))%nat.

Definition digit_val (c : ascii) : Z := Z.of_nat (nat_of_ascii c) - 48.

Definition upper_char (c : ascii) : ascii :=
  let n := nat_of_ascii c in
  if ((97 <=? n) && (n <=? 122))%nat then ascii_of_nat (n - 32) else c.

Definition lower_char (c : ascii) : ascii :=
  let n := nat_of_ascii c in
  if ((65 <=? n) && (n <=? 90))%nat then ascii_of_nat (n + 32) else c.

Fixpoint smap (f : ascii -> ascii) (s : string) : string :=
  match s with
  | EmptyString => EmptyString
  | String c r => String (f c) (smap f r)
  end.

Definition upper : string -> string := smap upper_char.
Definition lower : string -> string := smap lower_char.

Fixpoint lstrip (s : string) : string :=
  match s with
  | String c r => if is_space c then lstrip r else s
  | EmptyString => EmptyString
  end.

Fixpoint rstrip (s : string) : string :=
  match s with
  | String c r =>
      match rstrip r with
      | EmptyString => if is_space c then EmptyString else String c EmptyString
      | r' => String c r'
      end
  | EmptyString => EmptyString
  end.

(** [s.strip()] *)
Definition strip (s : string) : string := rstrip (lstrip s).

(** The white space that [int()] and [float()] skip around a number:
    tab, LF, VT, FF, CR and the space.  The separators 0x1c-0x1f, which
    [str.strip] removes, are not part of it. *)
Definition is_c_space (c : ascii) : bool :=
  let n := nat_of_ascii c in
  ((9 <=? n) && (n <=? 13) || (n =? 32))%nat.

Fixpoint c_lstrip (s : string) : string :=
  match s with
  | String c r => if is_c_space c then c_lstrip r else s
  | EmptyString => EmptyString
  end.

Fixpoint c_rstrip (s : string) : string :=
  match s with
  | String c r =>
      match c_rstrip r with
      | EmptyString => if is_c_space c then EmptyString else String c EmptyString
      | r' => String c r'
      end
  | EmptyString => EmptyString
  end.

Definition c_strip (s : string) : string := c_rstrip (c_lstrip s).

(** [s.split(sep)[0]]: the text before the first [sep]. *)
Fixpoint split_head (sep : ascii) (s : string) : string :=
  match s with
  | String c r => if Ascii.eqb c sep then EmptyString else String c (split_head sep r)
  | EmptyString => EmptyString
  end.

(** [s.replace(c, "")] for a one-character [c]. *)
Fixpoint remove_char (x : ascii) (s : string) : string :=
  match s with
  | String c r => if Ascii.eqb c x then remove_char x r else String c (remove_char x r)
  | EmptyString => EmptyString
  end.

(** [s.find(c)]: [None] stands for Python's [-1]. *)
Fixpoint find (x : ascii) (s : string) : option nat :=
  match s with
  | String c r => if Ascii.eqb c x then Some O else option_map S (find x r)
  | EmptyString => None
  end.

(** [s.rfind(c)] *)
Fixpoint rfind (x : ascii) (s : string) : option nat :=
  match s with
  | String c r =>
      match rfind x r with
      | Some i => Some (S i)
      | None => if Ascii.eqb c x then Some O else None
      end
  | EmptyString => None
  end.

(** [s[a : b]] for [0 <= a <= b]. *)
Definition slice (a b : nat) (s : string) : string := substring a (b - a) s.

(** [sub in s] *)
Fixpoint contains (sub s : string) : bool :=
  prefix sub s ||
  match s with
  | String _ r => contains sub r
  | EmptyString => false
  end.

Fixpoint has_char (x : ascii) (s : string) : bool :=
  match s with
  | String c r => Ascii.eqb c x || has_char x r
  | EmptyString => false
  end.

Definition is_empty (s : string) : bool :=
  match s with EmptyString => true | _ => false end.

(** [sep.join(l)] *)
Fixpoint join (sep : string) (l : list string) : string :=
  match l with
  | [] => ""
  | [x] => x
  | x :: r => x ++ sep ++ join sep r
  end.

End PyText.

(* ------------------------------------------------------------------ *)
(** ** Exceptions and results *)

Inductive exn : Type :=
| ValueError (msg : string)
| TypeError
| OverflowError
| AttributeError
| KeyError
| IndexError
| JSONDecodeError
| ReError
| GroqClientError (msg : string).

Inductive result (A : Type) : Type :=
| Ok (a : A)
| Raise (e : exn).
Arguments Ok {A} a.
Arguments Raise {A} e.

Definition rbind {A B} (r : result A) (k : A -> result B) : result B :=
  match r with Ok a => k a | Raise e => Raise e end.

(** [try: body except Exception: default] *)
Definition except_all {A} (body : result A) (default : A) : A :=
  match body with Ok a => a | Raise _ => default end.

(* ------------------------------------------------------------------ *)
(** ** Python numbers *)

(** The operations of Python's [float] that the code relies on.  A decimal
    literal denotes [of_decimal neg m e], the float nearest to
    [(-1)^neg * m * 10^e]. *)
Class PyFloat (F : Type) : Type := {
  of_decimal : bool -> Z -> Z -> F;
  f_inf : bool -> F;
  f_nan : F;
  (** [float(n)] for an int [n]: [OverflowError] when out of range *)
  of_int : Z -> result F;
  fadd : F -> F -> F;
  fmul : F -> F -> F;
  is_nan : F -> bool;
  (** the order of the non-NaN floats *)
  fcmp : F -> F -> comparison;
  (** [int(x)]: truncation; [ValueError] on NaN, [OverflowError] on an infinity *)
  int_of_float : F -> result Z;
  (** [format(x, ".<n>f")] and [str(x)] *)
  format_f : nat -> F -> string;
  float_str : F -> string
}.

(** The laws of the float order used by the ranker: [fcmp] is a total
    preorder given as a three-way comparison. *)
Class PyFloatOrder (F : Type) `{PyFloat F} : Prop := {
  fcmp_opp : forall a b, fcmp b a = CompOpp (fcmp a b);
  fcmp_eq_l : forall a b c, fcmp a b = Eq -> fcmp a c = fcmp b c;
  fcmp_lt_trans : forall a b c, fcmp a b = Lt -> fcmp b c = Lt -> fcmp a c = Lt
}.

Module PyNum.
Import PyText.

(** A run of digits in which single underscores may separate digits:
    [scan_digits acc n s] reads the longest such run at the head of [s],
    continuing the value [acc] of the [n] digits already read, and gives
    the value, the number of digits and the unread text. *)
Fixpoint scan_digits (acc : Z) (n : nat) (s : string) : Z * nat * string :=
  match s with
  | String c r =>
      if is_digit c then scan_digits (10 * acc + digit_val c) (S n) r
      else if Ascii.eqb c "_" && negb (Nat.eqb n 0) then
        match r with
        | String c' r' =>
            if is_digit c' then scan_digits (10 * acc + digit_val c') (S n) r'
            else (acc, n, s)
        | EmptyString => (acc, n, s)
        end
      else (acc, n, s)
  | EmptyString => (acc, n, s)
  end.

(** An optional sign: [true] for a minus. *)
Definition scan_sign (s : string) : bool * string :=
  match s with
  | String "-" r => (true, r)
  | String "+" r => (false, r)
  | _ => (false, s)
  end.

(** [sys.int_info.default_max_str_digits]: a longer decimal numeral is
    refused by [int()]. *)
Definition max_str_digits : nat := 4300.

(** [int(s)] for a string, in base 10. *)
Definition int_of_str (s : string) : result Z :=
  let '(neg, t) := scan_sign (c_strip s) in
  match scan_digits 0 0 t with
  | (v, S n, EmptyString) =>
      if (max_str_digits <? S n)%nat
      then Raise (ValueError "Exceeds the limit (4300 digits) for integer string conversion")
      else Ok (if neg then - v else v)
  | _ => Raise (ValueError "invalid literal for int()")
  end.

Section Floats.
Context {F : Type} `{PyFloat F}.

Definition zero : F := of_decimal false 0 0.
Definition one : F := of_decimal false 1 0.

(** The exponent part of a float literal, applied to the mantissa [m]
    read so far with [nf] digits after the point. *)
Definition scan_exponent (neg : bool) (m : Z) (nf : nat) (s : string) : result F :=
  match s with
  | EmptyString => Ok (of_decimal neg m (- Z.of_nat nf))
  | String c r =>
      if Ascii.eqb (lower_char c) "e" then
        let '(eneg, t) := scan_sign r in
        match scan_digits 0 0 t with
        | (e, S _, EmptyString) =>
            Ok (of_decimal neg m ((if eneg then - e else e) - Z.of_nat nf))
        | _ => Raise (ValueError "could not convert string to float")
        end
      else Raise (ValueError "could not convert string to float")
  end.

(** [float(s)] for a string. *)
Definition float_of_str (s : string) : result F :=
  let '(neg, t) := scan_sign (c_strip s) in
  let w := lower t in
  if String.eqb w "inf" || String.eqb w "infinity" then Ok (f_inf neg)
  else if String.eqb w "nan" then Ok f_nan
  else
    let '(ip, ni, r1) := scan_digits 0 0 t in
    match r1 with
    | String "." r2 =>
        let '(m, nf, r3) := scan_digits ip 0 r2 in
        if Nat.eqb (ni + nf) 0
        then Raise (ValueError "could not convert string to float")
        else scan_exponent neg m nf r3
    | _ =>
        if Nat.eqb ni 0
        then Raise (ValueError "could not convert string to float")
        else scan_exponent neg ip 0 r1
    end.

(** A value as [pandas.read_csv] hands it to the normalizers. *)
Inductive pyval : Type :=
| PNone
| PBool (b : bool)
| PInt (z : Z)
| PFloat (f : F)
| PStr (s : string).

(** [float(v)] *)
Definition py_float (v : pyval) : result F :=
  match v with
  | PStr s => float_of_str s
  | PFloat f => Ok f
  | PInt z => of_int z
  | PBool b => Ok (if b then one else zero)
  | PNone => Raise TypeError
  end.

(** [int(v)] *)
Definition py_int (v : pyval) : result Z :=
  match v with
  | PStr s => int_of_str s
  | PFloat f => int_of_float f
  | PInt z => Ok z
  | PBool b => Ok (if b then 1 else 0)
  | PNone => Raise TypeError
  end.

End Floats.
Arguments pyval F : clear implicits.

End PyNum.

(* ------------------------------------------------------------------ *)
(** ** Field normalizers ([phase_2/retrieval.py]) *)

Module Normalizer.
Import PyText PyNum.

Section WithFloat.
Context {F : Type} `{PyFloat F}.

Definition _parse_rating (raw : pyval F) : F :=
  match raw with
  | PStr s =>
      let text := upper (strip s) in
      if String.eqb text "NEW" || String.eqb text "-" || String.eqb text ""
      then zero
      else
        except_all
          (let number_part := strip (split_head "/" text) in
           float_of_str number_part)
          zero
  | _ => zero
  end.

Definition _parse_price (raw : pyval F) : F :=
  except_all
    (let raw' := match raw with
                 | PStr s => PStr (strip (remove_char "," s))
                 | v => v
                 end in
     py_float raw')
    zero.

Definition _parse_votes (raw : pyval F) : Z :=
  except_all
    (let raw' := match raw with
                 | PStr s => PStr (strip (remove_char "," s))
                 | v => v
                 end in
     py_int raw')
    0.

End WithFloat.
End Normalizer.

(* ------------------------------------------------------------------ *)
(** ** Data model ([phase_2/models.py] and the prepared data frame) *)

Section DataModel.
Context {F : Type} `{PyFloat F}.
Import PyNum.

(** [UserPreferences] *)
Record UserPreferences : Type := {
  min_price : option F;
  max_price : option F;
  locality : option string;
  min_rating : option F;
  desired_cuisines : option (list string)
}.

(** [Restaurant] *)
Record Restaurant : Type := {
  name : string;
  location : string;
  price_for_two : F;
  rating : F;
  cuisines : string;
  votes : Z
}.

(** One line of the CSV file.  A text cell is [None] when the value is
    missing (pandas reads it as NaN). *)
Record raw_row : Type := {
  col_name : option string;
  col_rate : pyval F;
  col_votes : pyval F;
  col_location : option string;
  col_cuisines : option string;
  col_approx_cost : pyval F
}.

(** One line of the prepared data frame: the CSV columns and the helper
    columns added by [load_prepared_dataframe]. *)
Record row : Type := {
  src : raw_row;
  rating_numeric : F;
  price_for_two_numeric : F;
  votes_numeric : Z;
  location_normalized : string;
  cuisines_normalized : string
}.

(** [str(cell)]: a missing value prints as [nan]. *)
Definition cell_str (c : option string) : string :=
  match c with Some s => s | None => "nan" end.

End DataModel.
Arguments UserPreferences F : clear implicits.
Arguments Restaurant F : clear implicits.
Arguments raw_row F : clear implicits.
Arguments row F : clear implicits.

(* ------------------------------------------------------------------ *)
(** ** Preference filter and ranker ([phase_2/retrieval.py]) *)

Module Retrieval.
Import PyText PyNum Normalizer.

Section WithFloat.
Context {F : Type} `{PyFloat F}.

(** The row-wise part of [load_prepared_dataframe].  [astype(str)] turns
    a missing cell into the text [nan] (pandas 1 and 2, where [str] columns
    have the object dtype), which is then lower-cased and searched like any
    other text. *)
Definition prepare_row (r : raw_row F) : row F :=
  {| src := r;
     rating_numeric := _parse_rating (col_rate r);
     price_for_two_numeric := _parse_price (col_approx_cost r);
     votes_numeric := _parse_votes (col_votes r);
     location_normalized := lower (cell_str (col_location r));
     cuisines_normalized := lower (cell_str (col_cuisines r)) |}.

Definition prepare (csv : list (raw_row F)) : list (row F) := map prepare_row csv.

(** [a >= b] and [a <= b] on floats: false as soon as one side is NaN. *)
Definition fge (a b : F) : bool :=
  negb (is_nan a) && negb (is_nan b) &&
  match fcmp a b with Lt => false | _ => true end.

Definition fle (a b : F) : bool :=
  negb (is_nan a) && negb (is_nan b) &&
  match fcmp a b with Gt => false | _ => true end.

(** [Series.str.contains(pat, na=False)] compiles [pat] as a regular
    expression ([regex=True] is the default of pandas) and searches it
    in every value. *)
Variable regex : Type.
Variable re_compile : string -> result regex.
Variable re_search : regex -> string -> bool.

Definition str_contains (column : row F -> string) (pat : string) (df : list (row F))
  : result (list bool) :=
  rbind (re_compile pat) (fun rx => Ok (map (fun r => re_search rx (column r)) df)).

(** [df[mask]] *)
Fixpoint select (df : list (row F)) (mask : list bool) : list (row F) :=
  match df, mask with
  | r :: df', b :: mask' => if b then r :: select df' mask' else select df' mask'
  | _, _ => []
  end.

(** [mask | other], where the initial [mask = False] is the all-false mask. *)
Fixpoint mask_or (m1 m2 : list bool) : list bool :=
  match m1, m2 with
  | a :: r1, b :: r2 => (a || b) :: mask_or r1 r2
  | _, _ => []
  end.

Definition cuisine_terms_of (l : list string) : list string :=
  map (fun c => lower (strip c)) (List.filter (fun c => negb (is_empty (strip c))) l).

(** The loop [for term in cuisine_terms: mask = mask | ...]. *)
Fixpoint cuisine_mask (terms : list string) (df : list (row F)) (mask : list bool)
  : result (list bool) :=
  match terms with
  | [] => Ok mask
  | term :: rest =>
      rbind (str_contains (@cuisines_normalized F) term df)
            (fun m => cuisine_mask rest df (mask_or mask m))
  end.

Definition filter_restaurants (df : list (row F)) (prefs : UserPreferences F)
  : result (list (row F)) :=
  let filtered := df in
  let filtered :=
    match min_price prefs with
    | Some p => List.filter (fun r => fge (price_for_two_numeric r) p) filtered
    | None => filtered
    end in
  let filtered :=
    match max_price prefs with
    | Some p => List.filter (fun r => fle (price_for_two_numeric r) p) filtered
    | None => filtered
    end in
  rbind
    (match locality prefs with
     | Some l =>
         if is_empty l then Ok filtered
         else
           let loc := lower (strip l) in
           rbind (str_contains (@location_normalized F) loc filtered)
                 (fun m => Ok (select filtered m))
     | None => Ok filtered
     end)
    (fun filtered =>
       let filtered :=
         match min_rating prefs with
         | Some p => List.filter (fun r => fge (rating_numeric r) p) filtered
         | None => filtered
         end in
       match desired_cuisines prefs with
       | Some ((_ :: _) as dc) =>
           match cuisine_terms_of dc with
           | [] => Ok filtered
           | terms =>
               rbind (cuisine_mask terms filtered (map (fun _ => false) filtered))
                     (fun m => Ok (select filtered m))
           end
       | _ => Ok filtered
       end).

(** *** Ranker *)

(** [math.log1p] on a float [>= 0], where it is defined everywhere. *)
Variable log1p : F -> F.

(** [log1p(max(v, 0))] for an int [v]: the int is converted to a float
    first, which raises [OverflowError] when it is beyond the float range. *)
Definition log1p_votes (v : Z) : result F :=
  rbind (of_int (Z.max v 0)) (fun x => Ok (log1p x)).

(** [rating * 2.0 + log1p(max(votes, 0))] *)
Definition score_of (rating_ : F) (votes_ : Z) : result F :=
  rbind (log1p_votes votes_) (fun l =>
  Ok (fadd (fmul rating_ (of_decimal false 20 (-1))) l)).

Definition score (r : row F) : result F :=
  score_of (rating_numeric r) (votes_numeric r).

(** A line of the copy of the frame that carries the [score] column. *)
Record scored_row : Type := {
  line : row F;
  score_col : F
}.

(** [df["score"] = ...]: the scores are computed line after line, and the
    first one that cannot be computed fails the assignment. *)
Fixpoint add_scores (df : list (row F)) : result (list scored_row) :=
  match df with
  | [] => Ok []
  | r :: rest =>
      rbind (score r) (fun s =>
      rbind (add_scores rest) (fun l =>
      Ok ({| line := r; score_col := s |} :: l)))
  end.

(** The order of one sort column of [DataFrame.sort_values]: missing
    values (NaN) go last whatever the direction. *)
Definition col_cmp_float (ascending : bool) (a b : F) : comparison :=
  match is_nan a, is_nan b with
  | true, true => Eq
  | true, false => Gt
  | false, true => Lt
  | false, false => if ascending then fcmp a b else fcmp b a
  end.

Definition col_cmp_int (ascending : bool) (a b : Z) : comparison :=
  if ascending then Z.compare a b else Z.compare b a.

Definition lex (c1 c2 : comparison) : comparison :=
  match c1 with Eq => c2 | _ => c1 end.

(** [by=["score", "rating_numeric", "votes_numeric", "price_for_two_numeric"],
    ascending=[False, False, False, True]] *)
Definition key_cmp (s1 : F) (r1 : F) (v1 : Z) (p1 : F) (s2 : F) (r2 : F) (v2 : Z) (p2 : F)
  : comparison :=
  lex (col_cmp_float false s1 s2)
    (lex (col_cmp_float false r1 r2)
       (lex (col_cmp_int false v1 v2)
          (col_cmp_float true p1 p2))).

Definition row_cmp (x y : scored_row) : comparison :=
  key_cmp (score_col x) (rating_numeric (line x)) (votes_numeric (line x))
          (price_for_two_numeric (line x))
          (score_col y) (rating_numeric (line y)) (votes_numeric (line y))
          (price_for_two_numeric (line y)).

(** [sort_values] on several columns is a stable lexicographic sort:
    a line is placed before the first line that does not precede it. *)
Fixpoint insert_row (x : scored_row) (l : list scored_row) : list scored_row :=
  match l with
  | [] => [x]
  | y :: r =>
      match row_cmp x y with
      | Gt => y :: insert_row x r
      | _ => x :: l
      end
  end.

Definition sort_values (df : list scored_row) : list scored_row :=
  fold_right insert_row [] df.

(** [df.head(n)]: the first [n] lines, or all but the last [-n] when [n < 0]. *)
Definition head {A : Type} (n : Z) (df : list A) : list A :=
  if 0 <=? n then firstn (Z.to_nat n) df
  else firstn (length df - Z.to_nat (- n)) df.

Definition to_restaurant (r : row F) : Restaurant F :=
  {| name := cell_str (col_name (src r));
     location := cell_str (col_location (src r));
     price_for_two := price_for_two_numeric r;
     rating := rating_numeric r;
     cuisines := cell_str (col_cuisines (src r));
     votes := votes_numeric r |}.

Definition rank_restaurants (df : list (row F)) (max_results : Z)
  : result (list (Restaurant F)) :=
  match df with
  | [] => Ok []
  | _ =>
      rbind (add_scores df) (fun df =>
      let df_sorted := head max_results (sort_values df) in
      Ok (map (fun x => to_restaurant (line x)) df_sorted))
  end.

End WithFloat.
Arguments scored_row F : clear implicits.
End Retrieval.

(* ------------------------------------------------------------------ *)
(** ** JSON values *)

Section Json.
Context {F : Type} `{PyFloat F}.

#[local] Set Warnings "-register-all".

(** What [json.loads] returns: [dict], [list], [str], [int], [float],
    [bool] or [None].  A [dict] is the list of its items, read with
    [dict_get]. *)
Inductive json : Type :=
| JNull
| JBool (b : bool)
| JInt (z : Z)
| JFloat (f : F)
| JStr (s : string)
| JArr (l : list json)
| JObj (kv : list (string * json)).

Fixpoint assoc (k : string) (kv : list (string * json)) : option json :=
  match kv with
  | [] => None
  | (k', v) :: r => if String.eqb k k' then Some v else assoc k r
  end.

(** [d.get(k, default)] on a dict. *)
Definition dict_get (kv : list (string * json)) (k : string) (default : json) : json :=
  match assoc k kv with Some v => v | None => default end.

(** [v.get(k, default)]: only a dict has the method. *)
Definition py_get (v : json) (k : string) (default : json) : result json :=
  match v with
  | JObj kv => Ok (dict_get kv k default)
  | _ => Raise AttributeError
  end.

(** [v[k]] for a string key. *)
Definition subscript_key (v : json) (k : string) : result json :=
  match v with
  | JObj kv => match assoc k kv with Some x => Ok x | None => Raise KeyError end
  | _ => Raise TypeError
  end.

(** [v[0]] *)
Definition subscript_0 (v : json) : result json :=
  match v with
  | JArr (x :: _) => Ok x
  | JArr [] => Raise IndexError
  | JObj _ => Raise KeyError
  | JStr (String c _) => Ok (JStr (String c EmptyString))
  | JStr EmptyString => Raise IndexError
  | _ => Raise TypeError
  end.

(** [int(v)]: [TypeError] for [None], a list or a dict. *)
Definition json_int (v : json) : result Z :=
  match v with
  | JInt z => Ok z
  | JBool b => Ok (if b then 1 else 0)
  | JFloat f => int_of_float f
  | JStr s => PyNum.int_of_str s
  | JNull | JArr _ | JObj _ => Raise TypeError
  end.

(** The values a [for] loop takes over [v]: the elements of a list, the
    keys of a dict, the characters of a string; [TypeError] otherwise. *)
Fixpoint chars (s : string) : list json :=
  match s with
  | EmptyString => []
  | String c r => JStr (String c EmptyString) :: chars r
  end.

Definition py_iter (v : json) : result (list json) :=
  match v with
  | JArr l => Ok l
  | JObj kv => Ok (map (fun p => JStr (fst p)) kv)
  | JStr s => Ok (chars s)
  | _ => Raise TypeError
  end.

End Json.
Arguments json F : clear implicits.

Definition string_of_Z (z : Z) : string :=
  DecimalString.NilZero.string_of_int (Z.to_int z).

(* ------------------------------------------------------------------ *)
(** ** Response parser ([phase_3/llm_recommender.py]) *)

Module Recommender.
Import PyText PyNum.

Section Parser.
Context {F : Type} `{PyFloat F}.

(** [json.loads]; [JSONDecodeError] is a [ValueError]. *)
Variable json_loads : string -> result (json F).
(** [str(v)] for a list or a dict. *)
Variable repr_container : json F -> string.

(** The candidates are handled through their references only: the
    parser is written for any type [R] of restaurant objects. *)
Variable R : Type.

(** [LLMRestaurantRecommendation] *)
Record LLMRestaurantRecommendation : Type := {
  restaurant : R;
  reason : string
}.

(** [str(v)] *)
Definition py_str (v : json F) : string :=
  match v with
  | JStr s => s
  | JNull => "None"
  | JBool b => if b then "True" else "False"
  | JInt z => string_of_Z z
  | JFloat f => float_str f
  | _ => repr_container v
  end.

Definition _extract_json_block (text : string) : result string :=
  match find "{" text, rfind "}" text with
  | Some start, Some end_ =>
      if (end_ <=? start)%nat
      then Raise (ValueError "No JSON object found in LLM response.")
      else Ok (slice start (end_ + 1) text)
  | _, _ => Raise (ValueError "No JSON object found in LLM response.")
  end.

(** What one turn of the loop does with [item]: it fails the call,
    skips the entry or appends a recommendation. *)
Inductive step : Type :=
| Raises (e : exn)
| Continue
| Append (rec : LLMRestaurantRecommendation).

Definition parse_item (candidates : list R) (item : json F) : step :=
  match py_get item "candidate_index" JNull with
  | Raise e => Raises e
  | Ok ci =>
      match json_int ci with
      | Raise TypeError | Raise (ValueError _) => Continue
      | Raise e => Raises e
      | Ok idx =>
          if (idx <? 0) || (idx >=? Z.of_nat (length candidates)) then Continue
          else
            match nth_error candidates (Z.to_nat idx) with
            | None => Raises IndexError
            | Some c =>
                match py_get item "reason" (JStr "") with
                | Raise e => Raises e
                | Ok rv => Append {| restaurant := c; reason := strip (py_str rv) |}
                end
            end
      end
  end.

(** The loop [for item in recs], with [results] as accumulator. *)
Fixpoint parse_items (candidates : list R) (recs : list (json F))
         (results : list LLMRestaurantRecommendation)
  : result (list LLMRestaurantRecommendation) :=
  match recs with
  | [] => Ok results
  | item :: rest =>
      match parse_item candidates item with
      | Raises e => Raise e
      | Continue => parse_items candidates rest results
      | Append rec => parse_items candidates rest (results ++ [rec])
      end
  end.

Definition _parse_llm_response (raw_text : string) (candidates : list R)
  : result (list LLMRestaurantRecommendation) :=
  rbind (_extract_json_block raw_text) (fun json_block =>
  rbind (json_loads json_block) (fun data =>
  rbind (py_get data "recommendations" (JArr [])) (fun recs =>
  rbind (py_iter recs) (fun items =>
  parse_items candidates items [])))).

End Parser.
Arguments Raises {R} e.
Arguments Continue {R}.
Arguments Append {R} rec.
End Recommender.

(* ------------------------------------------------------------------ *)
(** ** Prompt builder ([phase_3/prompt_templates.py]) *)

Module Prompt.
Import PyText.

Definition nl : string := String (ascii_of_nat 10) EmptyString.
Definition dq : string := String (ascii_of_nat 34) EmptyString.

Section WithFloat.
Context {F : Type} `{PyFloat F}.

Definition candidate_line (idx : nat) (r : Restaurant F) : string :=
  string_of_Z (Z.of_nat idx) ++ ": name=" ++ name r ++ " | locality=" ++ location r
    ++ " | rating=" ++ format_f 1 (rating r)
    ++ " | price_for_two=" ++ format_f 0 (price_for_two r)
    ++ " | votes=" ++ string_of_Z (votes r) ++ " | cuisines=" ++ cuisines r.

(** [enumerate(candidates)] from [idx] on. *)
Fixpoint candidate_lines (idx : nat) (candidates : list (Restaurant F)) : list string :=
  match candidates with
  | [] => []
  | r :: rest => candidate_line idx r :: candidate_lines (S idx) rest
  end.

Definition build_candidate_summary (candidates : list (Restaurant F)) : string :=
  join nl (candidate_lines 0 candidates).

Definition build_system_prompt : string :=
  "You are an AI restaurant recommender assistant." ++ nl
  ++ "You are given a list of candidate restaurants that all come from a single "
  ++ "Zomato dataset. This dataset is the ONLY allowed source of restaurant data."
  ++ nl ++ nl
  ++ "RULES:" ++ nl
  ++ "- You must ONLY recommend restaurants from the provided candidate list." ++ nl
  ++ "- You must NOT invent or add any new restaurant names, locations, cuisines, "
  ++ "  or facts that are not present in the candidate list." ++ nl
  ++ "- If no candidates are suitable, you must return an empty list." ++ nl
  ++ "- You must respond with a valid JSON object only, with no extra commentary." ++ nl
  ++ "- Do not add any external knowledge (such as reviews, addresses, or details) "
  ++ "  beyond what is present in the candidate list fields." ++ nl.

Definition or_any (o : option F) : string :=
  match o with Some x => float_str x | None => "any" end.

Definition build_user_message (prefs : UserPreferences F)
           (candidates : list (Restaurant F)) (max_results : Z) : string :=
  let candidate_block := build_candidate_summary candidates in
  let prefs_desc :=
    "User preferences:" ++ nl
    ++ "- Locality: "
    ++ match locality prefs with
       | Some l => if is_empty l then "any" else l
       | None => "any"
       end ++ nl
    ++ "- Price for two range: " ++ or_any (min_price prefs) ++ " to "
    ++ or_any (max_price prefs) ++ nl
    ++ "- Minimum rating: " ++ or_any (min_rating prefs) ++ nl
    ++ "- Desired cuisines: "
    ++ match desired_cuisines prefs with
       | Some ((_ :: _) as dc) => join ", " dc
       | _ => "any"
       end ++ nl in
  let instructions :=
    "From the candidate list below, choose up to "
    ++ string_of_Z max_results
    ++ " restaurants that best match the user's preferences." ++ nl
    ++ "For each recommended restaurant, provide a short explanation that ONLY uses "
    ++ "the fields available in the candidate list (name, locality, rating, price, "
    ++ "votes, cuisines)." ++ nl ++ nl
    ++ "Respond with a JSON object of the form:" ++ nl ++ nl
    ++ "{" ++ nl
    ++ "  " ++ dq ++ "recommendations" ++ dq ++ ": [" ++ nl
    ++ "    {" ++ nl
    ++ "      " ++ dq ++ "candidate_index" ++ dq
    ++ ": <integer index from the candidate list>," ++ nl
    ++ "      " ++ dq ++ "reason" ++ dq ++ ": " ++ dq
    ++ "<short explanation using only candidate fields>" ++ dq ++ nl
    ++ "    }," ++ nl
    ++ "    ..." ++ nl
    ++ "  ]" ++ nl
    ++ "}" ++ nl ++ nl
    ++ "Remember: do NOT add any restaurants that are not in the candidate list." in
  prefs_desc ++ nl ++ "Candidate restaurants:" ++ nl ++ candidate_block
    ++ nl ++ nl ++ instructions.

(** One chat message: its role and its content. *)
Definition message : Type := (string * string)%type.

Definition build_messages (prefs : UserPreferences F)
           (candidates : list (Restaurant F)) (max_results : Z) : list message :=
  let system_prompt := build_system_prompt in
  let user_message := build_user_message prefs candidates max_results in
  [("system", system_prompt); ("user", user_message)].

End WithFloat.
End Prompt.

(* ------------------------------------------------------------------ *)
(** ** Effects: environment, data file and network *)

Section Effects.
Context {F : Type} `{PyFloat F}.

(** The request of [requests.post] in [GroqClient.chat]. *)
Record request : Type := {
  rq_url : string;
  rq_authorization : string;
  rq_model : string;
  rq_messages : list Prompt.message;
  rq_temperature : F;
  rq_timeout : Z
}.

Record http_response : Type := {
  status_code : Z;
  text : string
}.

(** What a run can observe of the outside: the environment variables, the
    lines of [data/raw/zomato_raw.csv], and the answer of the service to a
    request (an exception of [requests] when the transport fails). *)
Record world : Type := {
  getenv : string -> option string;
  csv_rows : list (raw_row F);
  post : request -> result http_response
}.

Inductive event : Type :=
| EvReadCsv
| EvPost (rq : request).

Definition is_network (e : event) : bool :=
  match e with EvPost _ => true | EvReadCsv => false end.

(** Computations that read the world, may raise, and log their I/O. *)
Definition M (A : Type) : Type := world -> list event -> result A * list event.

Definition ret {A} (a : A) : M A := fun _ tr => (Ok a, tr).
Definition raise {A} (e : exn) : M A := fun _ tr => (Raise e, tr).
Definition bind {A B} (m : M A) (k : A -> M B) : M B :=
  fun w tr =>
    match m w tr with
    | (Ok a, tr') => k a w tr'
    | (Raise e, tr') => (Raise e, tr')
    end.
Definition lift {A} (r : result A) : M A := fun _ tr => (r, tr).
Definition ask : M world := fun w tr => (Ok w, tr).
Definition emit (e : event) : M unit := fun _ tr => (Ok tt, (tr ++ [e])%list).

(** Running a computation from an empty log. *)
Definition run {A} (m : M A) (w : world) : result A * list event := m w [].

End Effects.
Arguments request F : clear implicits.
Arguments world F : clear implicits.
Arguments event F : clear implicits.
Arguments M F A : clear implicits.

Declare Scope monad_scope.
Notation "x <- m ;; k" := (bind m (fun x => k))
  (at level 61, m at next level, right associativity) : monad_scope.
Notation "m ;;; k" := (bind m (fun _ => k))
  (at level 61, right associativity) : monad_scope.

(* ------------------------------------------------------------------ *)
(** ** Groq client ([phase_3/client.py]) *)

Module Client.
Import PyText.
Local Open Scope monad_scope.

Definition GROQ_DEFAULT_BASE_URL : string := "https://api.groq.com/openai/v1".
Definition GROQ_DEFAULT_MODEL : string := "llama-3.3-70b-versatile".

Record GroqConfig : Type := {
  api_key : string;
  base_url : string;
  model : string
}.

(** [s.rstrip(c)] for a one-character [c]. *)
Fixpoint rstrip_char (x : ascii) (s : string) : string :=
  match s with
  | String c r =>
      match rstrip_char x r with
      | EmptyString => if Ascii.eqb c x then EmptyString else String c EmptyString
      | r' => String c r'
      end
  | EmptyString => EmptyString
  end.

Definition config_error : exn :=
  GroqClientError
    ("GROQ_API_KEY environment variable is not set. " ++ "Set it before running Phase 3.").

Section WithFloat.
Context {F : Type} `{PyFloat F}.
Variable json_loads : string -> result (json F).
Variable repr_container : json F -> string.

(** [os.getenv(k, default)] *)
Definition getenv_default (w : world F) (k default : string) : string :=
  match getenv w k with Some v => v | None => default end.

Definition load_groq_config : M F GroqConfig :=
  w <- ask ;;
  match getenv w "GROQ_API_KEY" with
  | None | Some EmptyString => raise config_error
  | Some key =>
      let base := rstrip_char "/" (getenv_default w "GROQ_API_BASE" GROQ_DEFAULT_BASE_URL) in
      let mdl := getenv_default w "GROQ_MODEL" GROQ_DEFAULT_MODEL in
      ret {| api_key := key; base_url := base; model := mdl |}
  end.

(** [GroqClient(config)]: [self.config = config or load_groq_config()].
    A [GroqConfig] is always true, so that the environment is read only
    when no configuration is given. *)
Definition GroqClient (config : option GroqConfig) : M F GroqConfig :=
  match config with
  | Some c => ret c
  | None => load_groq_config
  end.

(** [data["choices"][0]["message"]["content"]] *)
Definition content_of (data : json F) : result (json F) :=
  rbind (subscript_key data "choices") (fun a =>
  rbind (subscript_0 a) (fun b =>
  rbind (subscript_key b "message") (fun c =>
  subscript_key c "content"))).

(** The request built by [chat]: URL, headers and payload. *)
Definition chat_request (config : GroqConfig) (messages : list Prompt.message) : request F :=
  let url := base_url config ++ "/chat/completions" in
  {| rq_url := url;
     rq_authorization := "Bearer " ++ api_key config;
     rq_model := model config;
     rq_messages := messages;
     rq_temperature := of_decimal false 2 (-1);
     rq_timeout := 60 |}.

Definition chat (config : GroqConfig) (messages : list Prompt.message) : M F (json F) :=
  let rq := chat_request config messages in
  emit (EvPost rq) ;;;
  w <- ask ;;
  response <- lift (post w rq) ;;
  if negb (status_code response =? 200) then
    raise (GroqClientError
             ("Groq API error " ++ string_of_Z (status_code response) ++ ": "
                ++ slice 0 500 (text response)))
  else
    data <- lift (json_loads (text response)) ;;
    match content_of data with
    | Ok c => ret c
    | Raise KeyError | Raise IndexError =>
        raise (GroqClientError
                 ("Unexpected Groq response shape: "
                    ++ Recommender.py_str repr_container data))
    | Raise e => raise e
    end.

End WithFloat.
End Client.

(* ------------------------------------------------------------------ *)
(** ** The two pipelines *)

Module Pipeline.
Import PyText Retrieval Recommender Prompt Client.
Local Open Scope monad_scope.

Section WithFloat.
Context {F : Type} `{PyFloat F}.
Variable regex : Type.
Variable re_compile : string -> result regex.
Variable re_search : regex -> string -> bool.
Variable log1p : F -> F.
Variable json_loads : string -> result (json F).
Variable repr_container : json F -> string.

(** [load_prepared_dataframe] *)
Definition load_prepared_dataframe : M F (list (row F)) :=
  emit (EvReadCsv : event F) ;;;
  w <- ask ;;
  ret (prepare (csv_rows w)).

(** [get_recommendations] of [phase_2/retrieval.py] *)
Definition get_recommendations (prefs : UserPreferences F) (max_results : Z)
  : M F (list (Restaurant F)) :=
  df <- load_prepared_dataframe ;;
  filtered <- lift (filter_restaurants re_compile re_search df prefs) ;;
  lift (rank_restaurants log1p filtered max_results).

(** The text methods of [_extract_json_block] exist on a [str] only. *)
Definition as_text (v : json F) : result string :=
  match v with JStr s => Ok s | _ => Raise AttributeError end.

Definition get_llm_recommendations (prefs : UserPreferences F)
           (max_candidates max_results : Z)
  : M F (list (LLMRestaurantRecommendation (Restaurant F))) :=
  candidates <- get_recommendations prefs max_candidates ;;
  match candidates with
  | [] => ret []
  | _ =>
      let messages := build_messages prefs candidates max_results in
      client <- GroqClient None ;;
      raw <- chat json_loads repr_container client messages ;;
      raw_text <- lift (as_text raw) ;;
      lift (_parse_llm_response json_loads repr_container raw_text candidates)
  end.

End WithFloat.
End Pipeline.

(* ------------------------------------------------------------------ *)
(** ** An exact instance of the float operations

    [xfloat] carries a finite value as the rational it denotes, without
    rounding; a number beyond the range of the floats becomes an infinity
    and an int beyond it is refused by [float()], as in Python.  It is
    used to run the definitions on concrete inputs. *)

Module XFloat.

Inductive xfloat : Type :=
| XFin (q : Q)
| XInf (neg : bool)
| XNan.

(** The least magnitude that is rounded to an infinity. *)
Definition x_huge : Z := 2 ^ 1024 - 2 ^ 970.

Definition x_in_range (q : Q) : bool :=
  negb (Qle_bool (inject_Z x_huge) q) && negb (Qle_bool q (inject_Z (- x_huge))).

(** A number of the float range, or the infinity of its sign. *)
Definition x_fin (q : Q) : xfloat :=
  if x_in_range q then XFin (Qred q) else XInf (Qnum q <? 0).

Definition x_of_decimal (neg : bool) (m e : Z) : xfloat :=
  x_fin (inject_Z (if neg then - m else m) * Qpower (10 # 1) e).

Definition x_of_int (z : Z) : result xfloat :=
  if x_in_range (inject_Z z) then Ok (XFin (inject_Z z))
  else Raise OverflowError.

Definition x_add (a b : xfloat) : xfloat :=
  match a, b with
  | XNan, _ | _, XNan => XNan
  | XInf n1, XInf n2 => if Bool.eqb n1 n2 then XInf n1 else XNan
  | XInf n, XFin _ | XFin _, XInf n => XInf n
  | XFin p, XFin q => x_fin (p + q)
  end.

Definition x_mul (a b : xfloat) : xfloat :=
  match a, b with
  | XNan, _ | _, XNan => XNan
  | XInf n1, XInf n2 => XInf (xorb n1 n2)
  | XInf n, XFin q | XFin q, XInf n =>
      match Qcompare q 0 with
      | Eq => XNan
      | Lt => XInf (negb n)
      | Gt => XInf n
      end
  | XFin p, XFin q => x_fin (p * q)
  end.

Definition x_is_nan (a : xfloat) : bool :=
  match a with XNan => true | _ => false end.

(** [-inf < finite < +inf]; NaN is put after everything. *)
Definition x_cmp (a b : xfloat) : comparison :=
  match a, b with
  | XNan, XNan => Eq
  | XNan, _ => Gt
  | _, XNan => Lt
  | XInf n1, XInf n2 =>
      match n1, n2 with
      | true, false => Lt
      | false, true => Gt
      | _, _ => Eq
      end
  | XInf n, XFin _ => if n then Lt else Gt
  | XFin _, XInf n => if n then Gt else Lt
  | XFin p, XFin q => Qcompare p q
  end.

Definition x_int (a : xfloat) : result Z :=
  match a with
  | XFin q => Ok (Z.quot (Qnum q) (Zpos (Qden q)))
  | XInf _ => Raise OverflowError
  | XNan => Raise (ValueError "cannot convert float NaN to integer")
  end.

Definition round_half_even (q : Q) : Z :=
  let n := Qnum q in
  let d := Zpos (Qden q) in
  let fl := n / d in
  let rem2 := 2 * (n mod d) in
  if rem2 <? d then fl
  else if d <? rem2 then fl + 1
  else if Z.even fl then fl else fl + 1.

Fixpoint zeros (n : nat) : string :=
  match n with O => EmptyString | S k => String "0" (zeros k) end.

(** The decimal notation of [r / 10^n] with [n] digits after the point. *)
Definition fixed (n : nat) (r : Z) : string :=
  let digits := string_of_Z (Z.abs r) in
  let digits := zeros (S n - String.length digits) ++ digits in
  let k := (String.length digits - n)%nat in
  (if r <? 0 then "-" else "")
    ++ substring 0 k digits
    ++ match n with O => "" | _ => "." ++ substring k n digits end.

Definition x_format (n : nat) (a : xfloat) : string :=
  match a with
  | XFin q => fixed n (round_half_even (q * Qpower (10 # 1) (Z.of_nat n)))
  | XInf neg => if neg then "-inf" else "inf"
  | XNan => "nan"
  end.

(** The least number of decimals, between 1 and 17, that writes [q]. *)
Fixpoint decimals (fuel : nat) (n : nat) (q : Q) : nat :=
  match fuel with
  | O => n
  | S k =>
      if (Zpos (Qden (Qred (q * Qpower (10 # 1) (Z.of_nat n)))) =? 1) then n
      else decimals k (S n) q
  end.

Definition x_str (a : xfloat) : string :=
  match a with
  | XFin q => x_format (decimals 16 1 q) a
  | _ => x_format 0 a
  end.

#[export] Instance xfloat_PyFloat : PyFloat xfloat := {
  of_decimal := x_of_decimal;
  f_inf := XInf;
  f_nan := XNan;
  of_int := x_of_int;
  fadd := x_add;
  fmul := x_mul;
  is_nan := x_is_nan;
  fcmp := x_cmp;
  int_of_float := x_int;
  format_f := x_format;
  float_str := x_str
}.

End XFloat.

(* ------------------------------------------------------------------ *)
(** ** Vocabulary of the statements about the response parser *)

Module ParserSpec.
Import PyText Recommender.

(** [x] occurs in [s] at position [i] and nowhere before (after) it. *)
Definition first_at (x : ascii) (s : string) (i : nat) : Prop :=
  String.get i s = Some x /\ forall j, (j < i)%nat -> String.get j s <> Some x.

Definition last_at (x : ascii) (s : string) (i : nat) : Prop :=
  String.get i s = Some x /\ forall j, (i < j)%nat -> String.get j s <> Some x.

Definition no_json_object : exn := ValueError "No JSON object found in LLM response.".

Section WithFloat.
Context {F : Type} `{PyFloat F}.
Variable repr_container : json F -> string.
Variable R : Type.

(** The int that the [candidate_index] of an entry converts to. *)
Definition entry_index (item : json F) : result Z :=
  rbind (py_get item "candidate_index" JNull) json_int.

(** The reason of an entry: its [reason] as trimmed text, empty when
    the field is missing. *)
Definition entry_reason (item : json F) : string :=
  match item with
  | JObj kv =>
      match assoc "reason" kv with
      | Some v => strip (py_str repr_container v)
      | None => ""
      end
  | _ => ""
  end.

(** An entry is valid when its index converts to an int within the
    candidate list; it then stands for that candidate. *)
Definition recommendation_of (candidates : list R) (item : json F)
  : option (LLMRestaurantRecommendation R) :=
  match entry_index item with
  | Ok idx =>
      if (0 <=? idx) && (idx <? Z.of_nat (length candidates)) then
        match nth_error candidates (Z.to_nat idx) with
        | Some c => Some {| restaurant := c; reason := entry_reason item |}
        | None => None
        end
      else None
  | Raise _ => None
  end.

(** One recommendation per valid entry, in the order of the entries. *)
Fixpoint recommendations_of (candidates : list R) (items : list (json F))
  : list (LLMRestaurantRecommendation R) :=
  match items with
  | [] => []
  | item :: rest =>
      match recommendation_of candidates item with
      | Some r => r :: recommendations_of candidates rest
      | None => recommendations_of candidates rest
      end
  end.

(** A recommendation is grounded when it holds the candidate found at
    some position of the list. *)
Definition grounded (candidates : list R) (rec : LLMRestaurantRecommendation R) : Prop :=
  exists idx, (idx < length candidates)%nat
              /\ nth_error candidates idx = Some (restaurant rec).

(** The entry [{"candidate_index": idx, "reason": why}]. *)
Definition entry (idx : Z) (why : string) : json F :=
  JObj [("candidate_index", JInt idx); ("reason", JStr why)].

End WithFloat.
End ParserSpec.

(* ------------------------------------------------------------------ *)
(** ** Concrete inputs

    The data of [phase_3/tests/test_llm_parsing.py] and of the scenarios,
    over the exact floats. *)

Module Samples.
Import XFloat PyText Prompt ParserSpec.

Definition cand_a : Restaurant xfloat :=
  {| name := "A"; location := "BTM"; price_for_two := XFin 300;
     rating := XFin 4; cuisines := "North Indian"; votes := 100 |}.

Definition cand_b : Restaurant xfloat :=
  {| name := "B"; location := "HSR"; price_for_two := XFin 400;
     rating := XFin 3.8; cuisines := "Chinese"; votes := 50 |}.

Definition candidates : list (Restaurant xfloat) := [cand_a; cand_b].

(** A name between double quotes. *)
Definition quoted (s : string) : string := dq ++ s ++ dq.

(** The text of a response with the given entries. *)
Definition response_text (entries : string) : string :=
  "{" ++ quoted "recommendations" ++ ": [" ++ entries ++ "]}".

Definition entry_text (idx why : string) : string :=
  "{" ++ quoted "candidate_index" ++ ": " ++ idx ++ ", "
      ++ quoted "reason" ++ ": " ++ quoted why ++ "}".

Definition index_only_text (idx : string) : string :=
  "{" ++ quoted "candidate_index" ++ ": " ++ idx ++ "}".

(** The response of the unit test. *)
Definition text_basic : string :=
  response_text (entry_text "0" "Matches locality and budget." ++ ", "
                   ++ entry_text "1" "Backup option.").

(** The two responses of the scenario with one candidate. *)
Definition text_one : string := response_text (entry_text "0" "ok").
Definition text_five : string := response_text (entry_text "5" "ok").

(** A response that names an index outside the list between two valid ones. *)
Definition text_out_of_range : string :=
  "Sure: " ++ response_text (entry_text "1" " ok " ++ ", " ++ entry_text "5" "far"
                               ++ ", " ++ entry_text "1" "again") ++ " Done.".

(** A response whose index is a number too large for a float. *)
Definition text_overflow : string := response_text (index_only_text "1e999").

(** A response that names the first candidate three times. *)
Definition text_repeated : string :=
  response_text (entry_text "0" "one" ++ ", " ++ entry_text "0" "two"
                   ++ ", " ++ entry_text "0" "three").

(** The body of a successful answer of the service around [content]. *)
Fixpoint escape (s : string) : string :=
  match s with
  | EmptyString => EmptyString
  | String c r =>
      if Ascii.eqb c (ascii_of_nat 34) then String "\" (String c (escape r))
      else String c (escape r)
  end.

Definition envelope_text (content : string) : string :=
  "{" ++ quoted "choices" ++ ": [{" ++ quoted "message" ++ ": {"
      ++ quoted "content" ++ ": " ++ quoted (escape content) ++ "}}]}".

Definition envelope_value (content : string) : json xfloat :=
  JObj [("choices", JArr [JObj [("message", JObj [("content", JStr content)])]])].

Definition response_value (entries : list (json xfloat)) : json xfloat :=
  JObj [("recommendations", JArr entries)].

(** [json.loads] on the texts above. *)
Definition sample_table : list (string * json xfloat) :=
  [ (text_basic,
     response_value [entry 0 "Matches locality and budget."; entry 1 "Backup option."]);
    (slice 6 (String.length text_out_of_range - 6) text_out_of_range,
     response_value [entry 1 " ok "; entry 5 "far"; entry 1 "again"]);
    (text_overflow,
     response_value [JObj [("candidate_index", JFloat (XInf false))]]);
    (text_one, response_value [entry 0 "ok"]);
    (text_five, response_value [entry 5 "ok"]);
    (text_repeated,
     response_value [entry 0 "one"; entry 0 "two"; entry 0 "three"]);
    (envelope_text text_repeated, envelope_value text_repeated) ].

Fixpoint table_get (table : list (string * json xfloat)) (s : string) : option (json xfloat) :=
  match table with
  | [] => None
  | (k, v) :: r => if String.eqb s k then Some v else table_get r s
  end.

Definition sample_loads (s : string) : result (json xfloat) :=
  match table_get sample_table s with
  | Some v => Ok v
  | None => Raise JSONDecodeError
  end.

Definition sample_repr (v : json xfloat) : string := "<container>".

(** Regular expressions made of literal characters and of the wildcard
    [.]: the patterns on which this matcher agrees with Python's [re];
    any other pattern is refused. *)
Definition is_meta (c : ascii) : bool := has_char c "\^$*+?{}[]|()".

Fixpoint has_meta (pat : string) : bool :=
  match pat with
  | EmptyString => false
  | String c r => is_meta c || has_meta r
  end.

Definition wild_compile (pat : string) : result string :=
  if has_meta pat then Raise ReError else Ok pat.

Fixpoint match_here (pat s : string) : bool :=
  match pat, s with
  | EmptyString, _ => true
  | String p pr, String c sr =>
      (Ascii.eqb p "." && negb (Ascii.eqb c (ascii_of_nat 10)) || Ascii.eqb p c)
      && match_here pr sr
  | String _ _, EmptyString => false
  end.

Fixpoint wild_search (pat s : string) : bool :=
  match_here pat s
  || match s with
     | String _ r => wild_search pat r
     | EmptyString => false
     end.

(** A function in the place of [math.log1p]: the statements about the
    ranker hold for every function. *)
Definition sample_log1p (x : xfloat) : xfloat :=
  match x with
  | XFin q => XFin (inject_Z (Z.log2 (Qnum q / Zpos (Qden q) + 1)))
  | other => other
  end.

Definition text_cell (s : string) : PyNum.pyval xfloat := PyNum.PStr s.

Definition csv_spice : raw_row xfloat :=
  {| col_name := Some "Spice Hut"; col_rate := text_cell "4.1/5";
     col_votes := text_cell "1,200"; col_location := Some "BTM";
     col_cuisines := Some "North Indian, Chinese"; col_approx_cost := text_cell "500" |}.

Definition csv_noodle : raw_row xfloat :=
  {| col_name := Some "Noodle Bar"; col_rate := text_cell "3.9 /5";
     col_votes := PyNum.PInt 150; col_location := Some "HSR";
     col_cuisines := Some "Chinese"; col_approx_cost := text_cell "1,100" |}.

Definition csv_new : raw_row xfloat :=
  {| col_name := Some "New Place"; col_rate := text_cell "NEW";
     col_votes := text_cell "0"; col_location := Some "BTM";
     col_cuisines := Some "Cafe"; col_approx_cost := text_cell "300" |}.

(** A copy of the first line under another name: a tie on the sort key. *)
Definition csv_twin : raw_row xfloat :=
  {| col_name := Some "Spice Hut Two"; col_rate := text_cell "4.1/5";
     col_votes := text_cell "1,200"; col_location := Some "BTM";
     col_cuisines := Some "North Indian"; col_approx_cost := text_cell "500" |}.

Definition sample_csv : list (raw_row xfloat) := [csv_new; csv_spice; csv_noodle; csv_twin].

(** A line whose vote count, a one followed by 402 zeros, is beyond the
    range of the floats. *)
Definition csv_huge : raw_row xfloat :=
  {| col_name := Some "Crowd"; col_rate := text_cell "4.0/5";
     col_votes := text_cell (String "1" (zeros 402)); col_location := Some "BTM";
     col_cuisines := Some "Cafe"; col_approx_cost := text_cell "500" |}.

Definition no_prefs : UserPreferences xfloat :=
  {| min_price := None; max_price := None; locality := None;
     min_rating := None; desired_cuisines := None |}.

(** The preferences of [phase_3/run.py]. *)
Definition btm_prefs : UserPreferences xfloat :=
  {| min_price := Some (XFin 200); max_price := Some (XFin 600);
     locality := Some "BTM"; min_rating := Some (XFin 3.5);
     desired_cuisines := Some ["North Indian"] |}.

(** Preferences that no line of the sample data satisfies. *)
Definition whitefield_prefs : UserPreferences xfloat :=
  {| min_price := None; max_price := None; locality := Some "Whitefield";
     min_rating := Some (XFin 4.5); desired_cuisines := None |}.

(** Preferences whose locality is a single dot. *)
Definition dot_prefs : UserPreferences xfloat :=
  {| min_price := None; max_price := None; locality := Some ".";
     min_rating := None; desired_cuisines := None |}.

Definition env_with_key (k : string) : option string :=
  if String.eqb k "GROQ_API_KEY" then Some "gsk_test" else None.

Definition env_empty (k : string) : option string := None.

(** A service that answers every request with [text_repeated]. *)
Definition mock_post (rq : request xfloat) : result http_response :=
  Ok {| status_code := 200; text := envelope_text text_repeated |}.

Definition world_ok : world xfloat :=
  {| getenv := env_with_key; csv_rows := sample_csv; post := mock_post |}.

(** The same data and service seen from another process: other optional
    settings in the environment. *)
Definition env_other (k : string) : option string :=
  if String.eqb k "GROQ_API_KEY" then Some "gsk_other"
  else if String.eqb k "GROQ_MODEL" then Some "llama-3.1-8b-instant"
  else None.

Definition world_other : world xfloat :=
  {| getenv := env_other; csv_rows := sample_csv; post := mock_post |}.

Definition world_no_key : world xfloat :=
  {| getenv := env_empty; csv_rows := sample_csv; post := mock_post |}.

End Samples.

(* ------------------------------------------------------------------ *)
(** ** Vocabulary of the statements about the ranker *)

Module RankSpec.
Import Retrieval.

(** A three-way comparison that is a total preorder. *)
Record lawful {A : Type} (cmp : A -> A -> comparison) : Prop := {
  cmp_opp : forall a b, cmp b a = CompOpp (cmp a b);
  cmp_eq_l : forall a b c, cmp a b = Eq -> cmp a c = cmp b c;
  cmp_lt_trans : forall a b c, cmp a b = Lt -> cmp b c = Lt -> cmp a c = Lt
}.

Section WithFloat.
Context {F : Type} `{PyFloat F}.
Variable log1p : F -> F.

(** The score of a ranked restaurant, recomputed from its fields. *)
Definition restaurant_score (a : Restaurant F) : result F :=
  score_of log1p (rating a) (votes a).

(** The comparison of the sort keys of two restaurants whose scores are
    [sa] and [sb]. *)
Definition restaurant_cmp (sa sb : F) (a b : Restaurant F) : comparison :=
  key_cmp sa (rating a) (votes a) (price_for_two a)
          sb (rating b) (votes b) (price_for_two b).

(** Two floats tie in a sort column when both are missing or they compare
    equal; [x] goes strictly before [y] in a descending (ascending) column
    when it is the greater (smaller) one, a missing value going last. *)
Definition tie (x y : F) : Prop :=
  (is_nan x = true /\ is_nan y = true)
  \/ (is_nan x = false /\ is_nan y = false /\ fcmp x y = Eq).

Definition before_desc (x y : F) : Prop :=
  is_nan x = false /\ (is_nan y = true \/ fcmp x y = Gt).

Definition before_asc (x y : F) : Prop :=
  is_nan x = false /\ (is_nan y = true \/ fcmp x y = Lt).

(** [a] may stand before [b] in the ranking: both have a score, and they
    are ordered by score descending, then rating descending, then votes
    descending, then price ascending. *)
Definition ranked_before (a b : Restaurant F) : Prop :=
  exists sa sb,
    restaurant_score a = Ok sa /\ restaurant_score b = Ok sb
    /\ (before_desc sa sb
        \/ (tie sa sb
            /\ (before_desc (rating a) (rating b)
                \/ (tie (rating a) (rating b)
                    /\ (votes a > votes b
                        \/ (votes a = votes b
                            /\ (before_asc (price_for_two a) (price_for_two b)
                                \/ tie (price_for_two a) (price_for_two b)))))))).

(** [a] and [b] have a score and agree on the whole sort key. *)
Definition tied (a b : Restaurant F) : bool :=
  match restaurant_score a, restaurant_score b with
  | Ok sa, Ok sb =>
      match restaurant_cmp sa sb a b with Eq => true | _ => false end
  | _, _ => false
  end.

End WithFloat.
End RankSpec.

(* ------------------------------------------------------------------ *)
(** ** Vocabulary of the statements about the pipeline *)

Module PipelineSpec.

Section WithFloat.
Context {F : Type} `{PyFloat F}.

(** The credential is set: [GROQ_API_KEY] is a non-empty string. *)
Definition has_api_key (w : world F) : bool :=
  match getenv w "GROQ_API_KEY" with
  | Some (String _ _) => true
  | _ => false
  end.

(** No request was sent to the network. *)
Definition no_network (tr : list (event F)) : Prop :=
  existsb is_network tr = false.

(** What [chat] returns once the service has answered with [response]. *)
Definition chat_result (json_loads : string -> result (json F))
           (repr_container : json F -> string)
           (response : result http_response) : result (json F) :=
  rbind response (fun r =>
    if negb (status_code r =? 200) then
      Raise (GroqClientError
               ("Groq API error " ++ string_of_Z (status_code r) ++ ": "
                  ++ PyText.slice 0 500 (text r)))
    else
      rbind (json_loads (text r)) (fun data =>
        match Client.content_of data with
        | Ok c => Ok c
        | Raise KeyError | Raise IndexError =>
            Raise (GroqClientError
                     ("Unexpected Groq response shape: "
                        ++ Recommender.py_str repr_container data))
        | Raise e => Raise e
        end)).

End WithFloat.
End PipelineSpec.

(* ------------------------------------------------------------------ *)
(** ** Vocabulary of the statements about the normalizers *)

Module NormalizerSpec.
Import PyText.

(** Texts made of decimal digits only, of white space only. *)
Fixpoint digits_only (s : string) : bool :=
  match s with
  | EmptyString => true
  | String c r => is_digit c && digits_only r
  end.

Fixpoint spaces_only (s : string) : bool :=
  match s with
  | EmptyString => true
  | String c r => is_space c && spaces_only r
  end.

(** The number written by a run of digits, after the digits of [acc]. *)
Fixpoint decimal_value (acc : Z) (s : string) : Z :=
  match s with
  | EmptyString => acc
  | String c r => decimal_value (10 * acc + digit_val c) r
  end.

(** The sign written before a numeral and the number it makes of the
    value of the digits. *)
Definition sign_text (neg : bool) : string := if neg then "-" else "".

Definition signed (neg : bool) (v : Z) : Z := if neg then - v else v.

(** The rating text is one of the placeholders [NEW], [-] and the empty
    text, in any letter case and with white space around it or not. *)
Definition placeholder (s : string) : bool :=
  let text := upper (strip s) in
  String.eqb text "NEW" || String.eqb text "-" || String.eqb text "".

Section WithFloat.
Context {F : Type} `{PyFloat F}.

(** The value that [_parse_price] and [_parse_votes] convert: a string
    loses its commas and the white space around it. *)
Definition without_separators (raw : PyNum.pyval F) : PyNum.pyval F :=
  match raw with
  | PyNum.PStr s => PyNum.PStr (PyText.strip (PyText.remove_char "," s))
  | v => v
  end.

(** [0 <= x <= 5] *)
Definition in_0_5 (x : F) : bool :=
  Retrieval.fge x PyNum.zero && Retrieval.fle x (of_decimal false 5 0).

End WithFloat.
End NormalizerSpec.

(* ------------------------------------------------------------------ *)
(** ** Vocabulary of the statements about the preference filter *)

Module FilterSpec.
Import PyText Retrieval.

(** The search done by [Series.str.contains]: the term compiles and is
    found in the text. *)
Definition regex_match (regex : Type) (re_compile : string -> result regex)
           (re_search : regex -> string -> bool) (term text : string) : bool :=
  match re_compile term with
  | Ok rx => re_search rx text
  | Raise _ => false
  end.

Section WithFloat.
Context {F : Type} `{PyFloat F}.

(** How a text is searched for a term: [text_match term text] tells
    whether [text] matches.  The specification asks for [contains]. *)
Variable text_match : string -> string -> bool.

(** The constraints of the specification, each one active when the field
    is set (and, for the locality and the cuisines, not empty). *)
Definition satisfies (prefs : UserPreferences F) (r : row F) : Prop :=
  (forall p, min_price prefs = Some p -> fge (price_for_two_numeric r) p = true)
  /\ (forall p, max_price prefs = Some p -> fle (price_for_two_numeric r) p = true)
  /\ (forall l, locality prefs = Some l -> l <> "" ->
                text_match (lower (strip l)) (location_normalized r) = true)
  /\ (forall p, min_rating prefs = Some p -> fge (rating_numeric r) p = true)
  /\ (forall dc, desired_cuisines prefs = Some dc ->
                 cuisine_terms_of dc <> [] ->
                 exists term, In term (cuisine_terms_of dc)
                              /\ text_match term (cuisines_normalized r) = true).

End WithFloat.
End FilterSpec.

(* ------------------------------------------------------------------ *)
(** ** The filter as one predicate on lines *)

Module FilterModel.
Import PyText Retrieval FilterSpec.

(** The term is accepted as a regular expression. *)
Definition compiles (regex : Type) (re_compile : string -> result regex)
           (t : string) : Prop :=
  exists rx, re_compile t = Ok rx.

Section WithFloat.
Context {F : Type} `{PyFloat F}.
Variable text_match : string -> string -> bool.

Definition when_set {A : Type} (o : option A) (p : A -> bool) : bool :=
  match o with Some a => p a | None => true end.

(** The term searched in the locality column, when the locality is set
    and not empty. *)
Definition locality_term (prefs : UserPreferences F) : option string :=
  match locality prefs with
  | Some l => if is_empty l then None else Some (lower (strip l))
  | None => None
  end.

(** The terms searched in the cuisine column. *)
Definition cuisine_terms (prefs : UserPreferences F) : list string :=
  match desired_cuisines prefs with
  | Some dc => cuisine_terms_of dc
  | None => []
  end.

(** The terms that the filter compiles, in the order it compiles them. *)
Definition active_terms (prefs : UserPreferences F) : list string :=
  match locality_term prefs with
  | Some t => t :: cuisine_terms prefs
  | None => cuisine_terms prefs
  end.

(** A line passes every active constraint. *)
Definition keeps (prefs : UserPreferences F) (r : row F) : bool :=
  when_set (min_price prefs) (fun p => fge (price_for_two_numeric r) p)
  && when_set (max_price prefs) (fun p => fle (price_for_two_numeric r) p)
  && when_set (locality_term prefs) (fun t => text_match t (location_normalized r))
  && when_set (min_rating prefs) (fun p => fge (rating_numeric r) p)
  && match cuisine_terms prefs with
     | [] => true
     | terms => existsb (fun t => text_match t (cuisines_normalized r)) terms
     end.

End WithFloat.

(** The preferences with the locality and every desired cuisine in upper
    case. *)
Definition shout {F : Type} (prefs : UserPreferences F) : UserPreferences F :=
  {| min_price := min_price prefs;
     max_price := max_price prefs;
     locality := option_map upper (locality prefs);
     min_rating := min_rating prefs;
     desired_cuisines := option_map (map upper) (desired_cuisines prefs) |}.

End FilterModel.

(* ------------------------------------------------------------------ *)
(** ** Vocabulary of the statements about texts *)

Module TextSpec.
Import PyText.

Definition starts_with_space (s : string) : bool :=
  match s with String c _ => is_space c | EmptyString => false end.

Fixpoint ends_with_space (s : string) : bool :=
  match s with
  | EmptyString => false
  | String c EmptyString => is_space c
  | String _ r => ends_with_space r
  end.

(** The last character of a text. *)
Fixpoint last_char (s : string) : option ascii :=
  match s with
  | EmptyString => None
  | String c EmptyString => Some c
  | String _ r => last_char r
  end.

Definition first_char (s : string) : option ascii :=
  match s with String c _ => Some c | EmptyString => None end.

End TextSpec.

(* ================================================================== *)
(** * Properties *)

Import PyText ParserSpec.

(* ------------------------------------------------------------------ *)
(** ** Searching a character in a text *)

Module TextFacts.

Lemma has_char_false_get x s :
  has_char x s = false -> forall j, String.get j s <> Some x.
Proof.
  induction s as [|c r IH]; simpl; intros Hc j.
  - destruct j; discriminate.
  - apply orb_false_iff in Hc as [Hcx Hr].
    destruct j as [|j]; simpl.
    + intros E. injection E as ->. rewrite Ascii.eqb_refl in Hcx. discriminate.
    + now apply IH.
Qed.

Lemma find_none x s : find x s = None <-> has_char x s = false.
Proof.
  induction s as [|c r IH]; simpl.
  - tauto.
  - destruct (Ascii.eqb c x); simpl.
    + split; discriminate.
    + destruct (find x r); simpl.
      * split; [discriminate|]. intros E. apply IH in E. discriminate.
      * tauto.
Qed.

Lemma find_first x s i : find x s = Some i -> first_at x s i.
Proof.
  revert i. induction s as [|c r IH]; simpl; intros i Hf.
  - discriminate.
  - destruct (Ascii.eqb c x) eqn:E.
    + injection Hf as <-. apply Ascii.eqb_eq in E. subst c.
      split; [reflexivity | intros j Hj; lia].
    + destruct (find x r) as [k|]; [|discriminate].
      injection Hf as <-. destruct (IH k eq_refl) as [Hg Hlt].
      split; [exact Hg|].
      intros [|j] Hj; simpl.
      * intros E'. injection E' as ->. rewrite Ascii.eqb_refl in E. discriminate.
      * apply Hlt. lia.
Qed.

Lemma rfind_none x s : rfind x s = None <-> has_char x s = false.
Proof.
  induction s as [|c r IH]; simpl.
  - tauto.
  - destruct (rfind x r).
    + split; [discriminate|]. intros E. apply orb_false_iff in E as [_ E].
      apply IH in E. discriminate.
    + destruct (Ascii.eqb c x); simpl.
      * split; discriminate.
      * tauto.
Qed.

Lemma rfind_last x s i : rfind x s = Some i -> last_at x s i.
Proof.
  revert i. induction s as [|c r IH]; simpl; intros i Hf.
  - discriminate.
  - destruct (rfind x r) as [k|] eqn:Er.
    + injection Hf as <-. destruct (IH k eq_refl) as [Hg Hgt].
      split; [exact Hg|].
      intros [|j] Hj; [lia|]. simpl. apply Hgt. lia.
    + destruct (Ascii.eqb c x) eqn:E; [|discriminate].
      injection Hf as <-. apply Ascii.eqb_eq in E. subst c.
      split; [reflexivity|].
      intros [|j] Hj; [lia|]. simpl.
      apply has_char_false_get. now apply rfind_none.
Qed.

Lemma first_at_find x s i : first_at x s i -> find x s = Some i.
Proof.
  intros [Hg Hlt]. destruct (find x s) as [k|] eqn:E.
  - destruct (find_first _ _ E) as [Hk Hklt].
    destruct (Nat.lt_trichotomy k i) as [L|[->|L]]; [|reflexivity|].
    + now apply Hlt in L.
    + now apply Hklt in L.
  - apply find_none in E. now apply has_char_false_get with (j := i) in E.
Qed.

Lemma last_at_rfind x s i : last_at x s i -> rfind x s = Some i.
Proof.
  intros [Hg Hgt]. destruct (rfind x s) as [k|] eqn:E.
  - destruct (rfind_last _ _ E) as [Hk Hkgt].
    destruct (Nat.lt_trichotomy k i) as [L|[->|L]]; [|reflexivity|].
    + now apply Hkgt in L.
    + now apply Hgt in L.
  - apply rfind_none in E. now apply has_char_false_get with (j := i) in E.
Qed.

End TextFacts.

(* ------------------------------------------------------------------ *)
(** ** The response parser *)

Module ParserFacts.
Import PyNum Recommender TextFacts.

Section WithFloat.
Context {F : Type} `{PyFloat F}.
Variable json_loads : string -> result (json F).
Variable repr_container : json F -> string.
Variable R : Type.

Local Abbreviation parse := (_parse_llm_response json_loads repr_container).
Local Abbreviation items_loop := (@parse_items F _ repr_container R).
Local Abbreviation item_step := (@parse_item F _ repr_container R).

Lemma extract_no_open raw :
  has_char "{" raw = false -> _extract_json_block raw = Raise no_json_object.
Proof.
  intros Hc. unfold _extract_json_block.
  now rewrite (proj2 (find_none _ _) Hc).
Qed.

Lemma extract_no_close raw :
  has_char "}" raw = false -> _extract_json_block raw = Raise no_json_object.
Proof.
  intros Hc. unfold _extract_json_block.
  rewrite (proj2 (rfind_none _ _) Hc). now destruct (find "{" raw).
Qed.

Lemma extract_span raw s e :
  first_at "{" raw s -> last_at "}" raw e ->
  _extract_json_block raw =
    if (e <=? s)%nat then Raise no_json_object else Ok (slice s (e + 1) raw).
Proof.
  intros Hs He. unfold _extract_json_block.
  now rewrite (first_at_find Hs), (last_at_rfind He).
Qed.

(** The step of the loop against the specification of a valid entry. *)
Lemma parse_item_spec (candidates : list R) (item : json F) :
  match item_step candidates item with
  | Raises _ => True
  | Continue => recommendation_of repr_container candidates item = None
  | Append r => recommendation_of repr_container candidates item = Some r
  end.
Proof.
  unfold parse_item, recommendation_of, entry_index.
  destruct item; simpl; trivial.
  destruct (json_int (dict_get kv "candidate_index" JNull)) as [idx|e] eqn:Ei.
  - destruct (idx <? 0) eqn:Hneg; simpl.
    + replace (0 <=? idx) with false by lia. reflexivity.
    + replace (0 <=? idx) with true by lia. simpl.
      destruct (idx >=? Z.of_nat (length candidates)) eqn:Hge.
      * replace (idx <? Z.of_nat (length candidates)) with false by lia. reflexivity.
      * replace (idx <? Z.of_nat (length candidates)) with true by lia.
        destruct (nth_error candidates (Z.to_nat idx)) as [c|] eqn:En; trivial.
        unfold dict_get. destruct (assoc "reason" kv); reflexivity.
  - destruct e; trivial.
Qed.

Lemma parse_items_spec (candidates : list R) items : forall acc out,
  items_loop candidates items acc = Ok out ->
  out = (acc ++ recommendations_of repr_container candidates items)%list.
Proof.
  induction items as [|item rest IH]; simpl; intros acc out Hp.
  - injection Hp as <-. now rewrite app_nil_r.
  - pose proof (parse_item_spec candidates item) as Hs.
    destruct (item_step candidates item) as [e| |r].
    + discriminate.
    + rewrite Hs. now apply IH.
    + rewrite Hs. apply IH in Hp. now rewrite <- app_assoc in Hp.
Qed.

Lemma recommendation_of_grounded (candidates : list R) item r :
  recommendation_of repr_container candidates item = Some r -> grounded candidates r.
Proof.
  unfold recommendation_of.
  destruct (entry_index item) as [idx|]; [|discriminate].
  destruct ((0 <=? idx) && (idx <? Z.of_nat (length candidates))) eqn:Hr; [|discriminate].
  destruct (nth_error candidates (Z.to_nat idx)) as [c|] eqn:En; [|discriminate].
  intros E. injection E as <-. exists (Z.to_nat idx). simpl. split; [lia | exact En].
Qed.

Lemma recommendations_of_grounded (candidates : list R) items :
  Forall (grounded candidates) (recommendations_of repr_container candidates items).
Proof.
  induction items as [|item rest IH]; simpl; [constructor|].
  destruct (recommendation_of repr_container candidates item) eqn:E; [|exact IH].
  constructor; [|exact IH]. eapply recommendation_of_grounded; eauto.
Qed.

(** An entry whose index is outside the list is skipped. *)
Lemma out_of_range_skipped (candidates : list R) item idx :
  entry_index item = Ok idx ->
  idx < 0 \/ idx >= Z.of_nat (length candidates) ->
  item_step candidates item = Continue.
Proof.
  unfold entry_index, parse_item. intros Hi Hr.
  destruct (py_get item "candidate_index" JNull) as [ci|]; [|discriminate].
  simpl in Hi. rewrite Hi.
  destruct (idx <? 0) eqn:Hneg; [reflexivity|]. simpl.
  replace (idx >=? Z.of_nat (length candidates)) with true by lia. reflexivity.
Qed.

Lemma parse_items_app (candidates : list R) pre : forall post acc,
  items_loop candidates (pre ++ post)%list acc =
    rbind (items_loop candidates pre acc) (items_loop candidates post).
Proof.
  induction pre as [|item pre IH]; simpl; intros post acc; [reflexivity|].
  destruct (item_step candidates item); [reflexivity| |]; apply IH.
Qed.

Lemma parse_payload_ok raw (candidates : list R) out :
  parse raw candidates = Ok out ->
  exists items, out = recommendations_of repr_container candidates items.
Proof.
  unfold _parse_llm_response. intros Hp.
  destruct (_extract_json_block raw) as [block|]; [simpl in Hp|discriminate].
  destruct (json_loads block) as [data|]; [simpl in Hp|discriminate].
  destruct (py_get data "recommendations" (JArr [])) as [recs|]; [simpl in Hp|discriminate].
  destruct (py_iter recs) as [items|]; [simpl in Hp|discriminate].
  exists items. now apply parse_items_spec in Hp.
Qed.

(** C1 -- Grounding invariant.  Whatever the response text and the
    candidate list, every recommendation returned by the response parser
    holds the candidate found at a position [idx < len(candidates)] of the
    list passed to that call; and an entry whose [candidate_index] converts
    to an int [< 0] or [>= len(candidates)] is skipped by the loop: the
    result is the one of the response without that entry. *)
Theorem grounding_invariant raw (candidates : list R) :
  (forall out, parse raw candidates = Ok out -> Forall (grounded candidates) out)
  /\ (forall item idx,
        entry_index item = Ok idx ->
        idx < 0 \/ idx >= Z.of_nat (length candidates) ->
        item_step candidates item = Continue
        /\ forall pre post acc,
            items_loop candidates (pre ++ item :: post)%list acc
            = items_loop candidates (pre ++ post)%list acc).
Proof.
  split.
  - intros out Hp. destruct (parse_payload_ok _ _ Hp) as [items ->].
    apply recommendations_of_grounded.
  - intros item idx Hi Hr.
    pose proof (out_of_range_skipped candidates item Hi Hr) as Hs.
    split; [exact Hs|].
    intros pre post acc. rewrite !parse_items_app.
    destruct (items_loop candidates pre acc); simpl; [|reflexivity].
    now rewrite Hs.
Qed.

(** C7 -- Response-shape error.  A response text with no open brace, with
    no close brace, or whose last close brace is not after its first open
    brace makes the parser raise [ValueError] (so it does not return an
    empty list); otherwise the text from the first open brace to the last
    close brace, both included, is what is decoded as the payload. *)
Theorem response_shape_error raw (candidates : list R) :
  (has_char "{" raw = false
   \/ has_char "}" raw = false
   \/ (exists s e, first_at "{" raw s /\ last_at "}" raw e /\ (e <= s)%nat)
   -> parse raw candidates = Raise no_json_object)
  /\ (forall s e,
        first_at "{" raw s -> last_at "}" raw e -> (s < e)%nat ->
        _extract_json_block raw = Ok (slice s (e + 1) raw)
        /\ parse raw candidates =
            rbind (json_loads (slice s (e + 1) raw)) (fun data =>
            rbind (py_get data "recommendations" (JArr [])) (fun recs =>
            rbind (py_iter recs) (fun items =>
            items_loop candidates items [])))).
Proof.
  split.
  - intros [Ho | [Hc | (s & e & Hs & He & Hle)]]; unfold _parse_llm_response.
    + now rewrite (extract_no_open _ Ho).
    + now rewrite (extract_no_close _ Hc).
    + rewrite (extract_span Hs He).
      now replace (e <=? s)%nat with true by (symmetry; apply Nat.leb_le; exact Hle).
  - intros s e Hs He Hlt.
    assert (Hx : _extract_json_block raw = Ok (slice s (e + 1) raw)).
    { rewrite (extract_span Hs He).
      now replace (e <=? s)%nat with false by (symmetry; apply Nat.leb_gt; exact Hlt). }
    split; [exact Hx|]. unfold _parse_llm_response. now rewrite Hx.
Qed.

(** C8 at the failing input -- an entry whose [candidate_index] is a float
    infinity (the JSON number [1e999]) is not skipped: [int()] raises
    [OverflowError], which the loop does not catch, and the whole call
    fails whatever the other entries are. *)
Theorem overflow_index_fails_request raw block f pre post (candidates : list R) acc :
  _extract_json_block raw = Ok block ->
  json_loads block
    = Ok (JObj [("recommendations",
                 JArr (pre ++ JObj [("candidate_index", JFloat f)] :: post)%list)]) ->
  int_of_float f = Raise OverflowError ->
  items_loop candidates pre [] = Ok acc ->
  parse raw candidates = Raise OverflowError.
Proof.
  intros Hb Hl Hf Hpre. unfold _parse_llm_response.
  rewrite Hb. simpl. rewrite Hl. simpl.
  rewrite parse_items_app, Hpre. simpl.
  unfold parse_item. simpl. now rewrite Hf.
Qed.

(** An entry whose index does not convert to an int, [int()] raising
    [TypeError] or [ValueError], is skipped and the loop goes on. *)
Lemma unconvertible_index_skipped (candidates : list R) kv msg :
  json_int (dict_get kv "candidate_index" JNull) = Raise TypeError
  \/ json_int (dict_get kv "candidate_index" JNull) = Raise (ValueError msg) ->
  item_step candidates (JObj kv) = Continue
  /\ forall rest acc,
      items_loop candidates (JObj kv :: rest) acc = items_loop candidates rest acc.
Proof.
  intros Hi.
  assert (Hs : item_step candidates (JObj kv) = Continue)
    by (unfold parse_item; simpl; destruct Hi as [-> | ->]; reflexivity).
  split; [exact Hs|]. intros rest acc. simpl. now rewrite Hs.
Qed.

(** The recommendation made from a valid entry. *)
Lemma parse_item_entry (candidates : list R) idx why c :
  nth_error candidates idx = Some c ->
  item_step candidates (entry (Z.of_nat idx) why)
  = Append {| restaurant := c; reason := strip why |}.
Proof.
  intros Hn. unfold parse_item, entry. simpl.
  assert (Hlt : (idx < length candidates)%nat)
    by (apply nth_error_Some; rewrite Hn; discriminate).
  replace (Z.of_nat idx <? 0) with false by lia.
  replace (Z.of_nat idx >=? Z.of_nat (length candidates)) with false by lia.
  simpl. now rewrite Nat2Z.id, Hn.
Qed.

Lemma parse_items_repeat (candidates : list R) idx why c n : forall acc,
  nth_error candidates idx = Some c ->
  items_loop candidates (repeat (entry (Z.of_nat idx) why) n) acc
  = Ok (acc ++ repeat {| restaurant := c; reason := strip why |} n)%list.
Proof.
  induction n as [|n IH]; simpl; intros acc Hn.
  - now rewrite app_nil_r.
  - rewrite (parse_item_entry _ _ why Hn), IH by exact Hn.
    now rewrite <- app_assoc.
Qed.

End WithFloat.
End ParserFacts.

(* ------------------------------------------------------------------ *)
(** ** Trimmed texts *)

Module TrimFacts.
Import TextSpec.

Lemma c_space_is_space c : is_c_space c = true -> is_space c = true.
Proof. destruct c as [[] [] [] [] [] [] [] []]; try discriminate; reflexivity. Qed.

Lemma lstrip_no_space s : starts_with_space (lstrip s) = false.
Proof.
  induction s as [|c r IH]; simpl; [reflexivity|].
  destruct (is_space c) eqn:E; [exact IH | simpl; exact E].
Qed.

Lemma lstrip_id s : starts_with_space s = false -> lstrip s = s.
Proof. destruct s as [|c r]; simpl; [reflexivity|]. now intros ->. Qed.

Lemma rstrip_keeps_start s :
  starts_with_space s = false -> starts_with_space (rstrip s) = false.
Proof.
  destruct s as [|c r]; simpl; [reflexivity|]. intros Hc.
  destruct (rstrip r); [now rewrite Hc | exact Hc].
Qed.

Lemma rstrip_no_space s : ends_with_space (rstrip s) = false.
Proof.
  induction s as [|c r IH]; simpl; [reflexivity|].
  destruct (rstrip r) as [|c' r'] eqn:E.
  - destruct (is_space c) eqn:Ec; simpl; [reflexivity | exact Ec].
  - exact IH.
Qed.

Lemma c_lstrip_id s : starts_with_space s = false -> c_lstrip s = s.
Proof.
  destruct s as [|c r]; simpl; [reflexivity|]. intros Hc.
  destruct (is_c_space c) eqn:E; [|reflexivity].
  apply c_space_is_space in E. congruence.
Qed.

Lemma c_rstrip_id s : ends_with_space s = false -> c_rstrip s = s.
Proof.
  induction s as [|c r IH]; [reflexivity|].
  destruct r as [|c' r'].
  - simpl. intros Hc. destruct (is_c_space c) eqn:E; [|reflexivity].
    apply c_space_is_space in E. congruence.
  - intros He. change (ends_with_space (String c' r') = false) in He.
    cbn [c_rstrip]. cbn [c_rstrip] in IH. rewrite (IH He). reflexivity.
Qed.

(** What [str.strip] returns is left as it is by the trimming of [int()]
    and [float()]. *)
Lemma c_strip_strip s : c_strip (strip s) = strip s.
Proof.
  unfold c_strip, strip.
  rewrite c_lstrip_id by apply rstrip_keeps_start, lstrip_no_space.
  apply c_rstrip_id, rstrip_no_space.
Qed.

End TrimFacts.

(* ------------------------------------------------------------------ *)
(** ** The field normalizers *)

Module NormalizerFacts.
Import PyNum Normalizer NormalizerSpec TrimFacts.

(** *** Text operations that only delete characters *)

Lemma has_char_lstrip x s : has_char x s = false -> has_char x (lstrip s) = false.
Proof.
  induction s as [|c r IH]; simpl; [trivial|].
  intros Hc. apply orb_false_iff in Hc as [Hcx Hr].
  destruct (is_space c); [now apply IH|]. simpl. now rewrite Hcx, Hr.
Qed.

Lemma has_char_rstrip x s : has_char x s = false -> has_char x (rstrip s) = false.
Proof.
  induction s as [|c r IH]; simpl; [trivial|].
  intros Hc. apply orb_false_iff in Hc as [Hcx Hr]. specialize (IH Hr).
  destruct (rstrip r) as [|c' r'].
  - destruct (is_space c); simpl; [reflexivity|]. now rewrite Hcx.
  - simpl in *. now rewrite Hcx, IH.
Qed.

Lemma has_char_strip x s : has_char x s = false -> has_char x (strip s) = false.
Proof. intros Hc. now apply has_char_rstrip, has_char_lstrip. Qed.

Lemma has_char_c_lstrip x s : has_char x s = false -> has_char x (c_lstrip s) = false.
Proof.
  induction s as [|c r IH]; simpl; [trivial|].
  intros Hc. apply orb_false_iff in Hc as [Hcx Hr].
  destruct (is_c_space c); [now apply IH|]. simpl. now rewrite Hcx, Hr.
Qed.

Lemma has_char_c_rstrip x s : has_char x s = false -> has_char x (c_rstrip s) = false.
Proof.
  induction s as [|c r IH]; simpl; [trivial|].
  intros Hc. apply orb_false_iff in Hc as [Hcx Hr]. specialize (IH Hr).
  destruct (c_rstrip r) as [|c' r'].
  - destruct (is_c_space c); simpl; [reflexivity|]. now rewrite Hcx.
  - simpl in *. now rewrite Hcx, IH.
Qed.

Lemma has_char_c_strip x s : has_char x s = false -> has_char x (c_strip s) = false.
Proof. intros Hc. now apply has_char_c_rstrip, has_char_c_lstrip. Qed.

Lemma has_char_remove x y s :
  has_char x s = false -> has_char x (remove_char y s) = false.
Proof.
  induction s as [|c r IH]; simpl; [trivial|].
  intros Hc. apply orb_false_iff in Hc as [Hcx Hr].
  destruct (Ascii.eqb c y); [now apply IH|]. simpl. now rewrite Hcx, IH.
Qed.

Lemma has_char_split_head x y s :
  has_char x s = false -> has_char x (split_head y s) = false.
Proof.
  induction s as [|c r IH]; simpl; [trivial|].
  intros Hc. apply orb_false_iff in Hc as [Hcx Hr].
  destruct (Ascii.eqb c y); [reflexivity|]. simpl. now rewrite Hcx, IH.
Qed.

Lemma upper_char_minus c : Ascii.eqb (upper_char c) "-" = Ascii.eqb c "-".
Proof.
  destruct c as [[] [] [] [] [] [] [] []]; reflexivity.
Qed.

Lemma has_char_upper s : has_char "-" (upper s) = has_char "-" s.
Proof.
  induction s as [|c r IH]; simpl; [reflexivity|].
  unfold upper in IH. now rewrite IH, upper_char_minus.
Qed.

(** *** Digits and signs *)

Lemma digit_val_nonneg c : is_digit c = true -> 0 <= digit_val c.
Proof.
  unfold is_digit, digit_val. intros Hd.
  apply andb_true_iff in Hd as [Hd _]. apply Nat.leb_le in Hd. lia.
Qed.

Lemma scan_digits_nonneg_bounded k : forall s acc n,
  (String.length s <= k)%nat -> 0 <= acc -> 0 <= fst (fst (scan_digits acc n s)).
Proof.
  induction k as [|k IH]; intros s acc n Hk Hacc.
  - destruct s; [exact Hacc | simpl in Hk; lia].
  - destruct s as [|c r]; [exact Hacc|]. simpl in Hk. cbn [scan_digits].
    destruct (is_digit c) eqn:Hd.
    + apply IH; [lia|]. pose proof (digit_val_nonneg _ Hd). lia.
    + destruct (Ascii.eqb c "_" && negb (Nat.eqb n 0)); [|exact Hacc].
      destruct r as [|c' r']; [exact Hacc|].
      destruct (is_digit c') eqn:Hd'; [|exact Hacc].
      simpl in Hk. apply IH; [lia|]. pose proof (digit_val_nonneg _ Hd'). lia.
Qed.

Lemma scan_digits_nonneg s acc n :
  0 <= acc -> 0 <= fst (fst (scan_digits acc n s)).
Proof. apply scan_digits_nonneg_bounded with (k := String.length s). lia. Qed.

Lemma scan_sign_unsigned s :
  has_char "-" s = false -> fst (scan_sign s) = false.
Proof.
  destruct s as [|c r]; [reflexivity|]. simpl. intros Hc.
  apply orb_false_iff in Hc as [Hc _].
  destruct c as [[] [] [] [] [] [] [] []]; try reflexivity; discriminate.
Qed.

Lemma int_of_str_unsigned s z :
  has_char "-" s = false -> int_of_str s = Ok z -> 0 <= z.
Proof.
  intros Hc. unfold int_of_str.
  pose proof (scan_sign_unsigned _ (has_char_c_strip _ _ Hc)) as Hs.
  destruct (scan_sign (c_strip s)) as [neg t]. simpl in Hs. subst neg.
  pose proof (@scan_digits_nonneg t 0 0%nat (Z.le_refl 0)) as Hv.
  destruct (scan_digits 0 0 t) as [[v n] rest]. simpl in Hv.
  destruct n; [discriminate|]. destruct rest; [|discriminate].
  destruct (max_str_digits <? S n)%nat; [discriminate|].
  intros E. injection E as <-. exact Hv.
Qed.

Section WithFloat.
Context {F : Type} `{PyFloat F}.

Lemma parse_votes_unsigned s :
  has_char "-" s = false -> 0 <= _parse_votes (F := F) (PStr s).
Proof.
  intros Hc. unfold _parse_votes. simpl.
  destruct (int_of_str (strip (remove_char "," s))) as [z|e] eqn:E; simpl; [|lia].
  apply int_of_str_unsigned in E; [exact E|].
  now apply has_char_strip, has_char_remove.
Qed.

(** C3 at the failing input -- the text [inf] is not a number, yet the
    rating it is given is the float infinity, not [0.0]; so are [Infinity]
    and, with NaN for result, [nan]. *)
Theorem parse_rating_inf_not_zero :
  _parse_rating (F := F) (PStr "inf") = f_inf false
  /\ _parse_rating (F := F) (PStr "Infinity") = f_inf false
  /\ _parse_rating (F := F) (PStr " nan") = f_nan.
Proof. repeat split; reflexivity. Qed.

End WithFloat.

End NormalizerFacts.

(* ------------------------------------------------------------------ *)
(** ** Ratings written [X.Y/5] *)

Module RatingFacts.
Import PyNum Normalizer NormalizerSpec TrimFacts.

Ltac by_cases_on c := destruct c as [[] [] [] [] [] [] [] []]; try discriminate; try reflexivity.

Lemma digit_not_space c : is_digit c = true -> is_space c = false.
Proof. by_cases_on c. Qed.

Lemma digit_upper c : is_digit c = true -> upper_char c = c.
Proof. by_cases_on c. Qed.

Lemma space_upper c : is_space c = true -> upper_char c = c.
Proof. by_cases_on c. Qed.

Lemma digit_not_slash c : is_digit c = true -> Ascii.eqb c "/" = false.
Proof. by_cases_on c. Qed.

Lemma space_not_slash c : is_space c = true -> Ascii.eqb c "/" = false.
Proof. by_cases_on c. Qed.

Lemma digit_not_sign c : is_digit c = true -> scan_sign (String c "") = (false, String c "").
Proof. by_cases_on c. Qed.

Lemma upper_app a b : upper (a ++ b) = upper a ++ upper b.
Proof. unfold upper. induction a as [|c a IH]; simpl; [reflexivity | now rewrite IH]. Qed.

Lemma upper_digits s : digits_only s = true -> upper s = s.
Proof.
  unfold upper. induction s as [|c r IH]; simpl; [reflexivity|]. intros Hd.
  apply andb_true_iff in Hd as [Hc Hr]. now rewrite IH, digit_upper.
Qed.

Lemma upper_spaces s : spaces_only s = true -> upper s = s.
Proof.
  unfold upper. induction s as [|c r IH]; simpl; [reflexivity|]. intros Hd.
  apply andb_true_iff in Hd as [Hc Hr]. now rewrite IH, space_upper.
Qed.

Lemma no_slash_digits s : digits_only s = true -> has_char "/" s = false.
Proof.
  induction s as [|c r IH]; simpl; [reflexivity|]. intros Hd.
  apply andb_true_iff in Hd as [Hc Hr]. now rewrite IH, digit_not_slash.
Qed.

Lemma no_slash_spaces s : spaces_only s = true -> has_char "/" s = false.
Proof.
  induction s as [|c r IH]; simpl; [reflexivity|]. intros Hd.
  apply andb_true_iff in Hd as [Hc Hr]. now rewrite IH, space_not_slash.
Qed.

Lemma has_char_app x a b : has_char x (a ++ b) = has_char x a || has_char x b.
Proof.
  induction a as [|c a IH]; simpl; [reflexivity|]. now rewrite IH, orb_assoc.
Qed.

Lemma split_head_app x a rest :
  has_char x a = false -> split_head x (a ++ String x rest) = a.
Proof.
  induction a as [|c a IH]; simpl.
  - now rewrite Ascii.eqb_refl.
  - intros Hc. apply orb_false_iff in Hc as [Hc Ha]. now rewrite Hc, IH.
Qed.

(** [rstrip] stops at the last character that is not white space. *)
Lemma rstrip_spaces w : spaces_only w = true -> rstrip w = "".
Proof.
  induction w as [|c w IH]; simpl; [reflexivity|]. intros Hw.
  apply andb_true_iff in Hw as [Hc Hw]. now rewrite IH, Hc.
Qed.

Lemma rstrip_cons c r :
  is_space c = false -> rstrip (String c r) = String c (rstrip r).
Proof. intros Hc. simpl. destruct (rstrip r); [now rewrite Hc | reflexivity]. Qed.

Lemma rstrip_app a c r :
  is_space c = false -> rstrip (a ++ String c r) = a ++ String c (rstrip r).
Proof.
  intros Hc. induction a as [|x a IH]; [now apply rstrip_cons|].
  simpl. simpl in IH. rewrite IH. now destruct a.
Qed.

Lemma lstrip_digit c r : is_digit c = true -> lstrip (String c r) = String c r.
Proof. intros Hd. simpl. now rewrite digit_not_space. Qed.

(** Scanning a run of digits that is followed by a point or by nothing. *)
Lemma scan_digits_run ds : forall acc n rest,
  digits_only ds = true ->
  rest = "" \/ (exists r, rest = String "." r) ->
  scan_digits acc n (ds ++ rest)
  = (decimal_value acc ds, (n + String.length ds)%nat, rest).
Proof.
  induction ds as [|c ds IH]; intros acc n rest Hd Hrest.
  - rewrite Nat.add_0_r. destruct Hrest as [-> | [r ->]]; reflexivity.
  - simpl in Hd. apply andb_true_iff in Hd as [Hc Hd].
    cbn [append scan_digits]. rewrite Hc, IH by assumption.
    cbn [decimal_value String.length]. f_equal. f_equal. lia.
Qed.

Lemma decimal_value_app a : forall acc b,
  decimal_value acc (a ++ b) = decimal_value (decimal_value acc a) b.
Proof. induction a as [|c a IH]; intros acc b; simpl; [reflexivity | apply IH]. Qed.

Lemma rstrip_app_spaces b w : spaces_only w = true -> rstrip (b ++ w) = rstrip b.
Proof.
  intros Hw. induction b as [|c b IH]; simpl; [now apply rstrip_spaces|].
  now rewrite IH.
Qed.

Lemma rstrip_digits s : digits_only s = true -> rstrip s = s.
Proof.
  induction s as [|c r IH]; simpl; [reflexivity|]. intros Hd.
  apply andb_true_iff in Hd as [Hc Hr]. rewrite IH by exact Hr.
  destruct r; [now rewrite digit_not_space | reflexivity].
Qed.

Lemma append_assoc a b c : (a ++ b) ++ c = a ++ (b ++ c).
Proof. induction a as [|x a IH]; simpl; [reflexivity | now rewrite IH]. Qed.

Lemma append_nil_r a : a ++ "" = a.
Proof. induction a as [|x a IH]; simpl; [reflexivity | now rewrite IH]. Qed.

(** The token [NEW] in any letter case, the dash and the empty text, with
    white space around them or not, are rated [0.0]. *)
Lemma parse_rating_placeholder (F : Type) `{PyFloat F} s :
  upper (strip s) = "NEW" \/ strip s = "-" \/ strip s = "" ->
  _parse_rating (F := F) (PStr s) = zero.
Proof.
  intros [E | [E | E]]; unfold _parse_rating; now rewrite E.
Qed.

(** *** The numeral [ip.fp], with a minus sign or without *)

Section Numeral.
Context {F : Type} `{PyFloat F}.
Variables (neg : bool) (d : ascii) (ip fp : string).
Hypothesis Hd : is_digit d = true.
Hypothesis Hi : digits_only ip = true.
Hypothesis Hf : digits_only fp = true.

Let num : string := String d ip ++ String "." fp.
Let snum : string := sign_text neg ++ num.

Lemma rstrip_numeral : rstrip snum = snum.
Proof.
  assert (Hn : rstrip num = num)
    by (unfold num; rewrite rstrip_app by reflexivity; now rewrite rstrip_digits).
  unfold snum. destruct neg; cbn [sign_text append]; [|exact Hn].
  rewrite rstrip_cons by reflexivity. now rewrite Hn.
Qed.

Lemma strip_numeral w : spaces_only w = true -> strip (snum ++ w) = snum.
Proof.
  intros Hw. unfold strip.
  replace (lstrip (snum ++ w)) with (snum ++ w)
    by (unfold snum, num; destruct neg; simpl; [reflexivity | now rewrite digit_not_space]).
  rewrite rstrip_app_spaces by exact Hw. apply rstrip_numeral.
Qed.

Lemma upper_numeral : upper snum = snum.
Proof.
  assert (Hn : upper num = num).
  { unfold num. rewrite upper_app.
    change (upper (String "." fp)) with (String "." (upper fp)).
    rewrite (upper_digits fp Hf).
    change (String d ip) with (String d "" ++ ip). rewrite upper_app.
    rewrite (upper_digits ip Hi).
    now rewrite (upper_digits (String d "")) by (simpl; now rewrite Hd). }
  unfold snum. rewrite upper_app, Hn. now destruct neg.
Qed.

Lemma no_slash_numeral : has_char "/" snum = false.
Proof.
  assert (Hn : has_char "/" num = false)
    by (unfold num; rewrite has_char_app; simpl;
        now rewrite digit_not_slash, !no_slash_digits).
  unfold snum. rewrite has_char_app, Hn. now destruct neg.
Qed.

Lemma scan_sign_numeral : scan_sign snum = (neg, num).
Proof. unfold snum, num. destruct neg; [reflexivity|]. simpl. by_cases_on d. Qed.

Lemma float_of_numeral :
  float_of_str (F := F) snum
  = Ok (of_decimal neg (decimal_value 0 (String d ip ++ fp))
                   (- Z.of_nat (String.length fp))).
Proof.
  unfold float_of_str.
  replace (c_strip snum) with snum
    by (rewrite <- (strip_numeral "" eq_refl) at 2; rewrite c_strip_strip;
        symmetry; apply (strip_numeral "" eq_refl)).
  rewrite scan_sign_numeral.
  assert (Hw : String.eqb (lower num) "inf" || String.eqb (lower num) "infinity" = false)
    by (unfold num; by_cases_on d).
  assert (Hn : String.eqb (lower num) "nan" = false) by (unfold num; by_cases_on d).
  rewrite Hw, Hn.
  unfold num at 1. rewrite scan_digits_run; [|simpl; now rewrite Hd|right; eauto].
  rewrite <- (append_nil_r fp) at 1.
  rewrite scan_digits_run; [|exact Hf|now left].
  simpl Nat.eqb. cbn [scan_exponent].
  now rewrite decimal_value_app.
Qed.

(** A rating written [ip.fp], then white space, a slash and anything
    (such as [5]) is the float of [ip.fp]. *)
Lemma parse_rating_numeral w rest :
  spaces_only w = true ->
  _parse_rating (F := F) (PStr (snum ++ w ++ String "/" rest))
  = of_decimal neg (decimal_value 0 (String d ip ++ fp))
               (- Z.of_nat (String.length fp)).
Proof.
  intros Hw. unfold _parse_rating.
  assert (Ht : upper (strip (snum ++ w ++ String "/" rest))
               = (snum ++ w) ++ String "/" (upper (rstrip rest))).
  { unfold strip.
    replace (lstrip (snum ++ w ++ String "/" rest)) with (snum ++ w ++ String "/" rest)
      by (unfold snum, num; destruct neg; simpl;
          [reflexivity | now rewrite digit_not_space]).
    rewrite <- append_assoc, rstrip_app by reflexivity.
    rewrite !upper_app, upper_numeral, (upper_spaces w Hw). reflexivity. }
  rewrite Ht.
  assert (Hk : String.eqb ((snum ++ w) ++ String "/" (upper (rstrip rest))) "NEW"
               || String.eqb ((snum ++ w) ++ String "/" (upper (rstrip rest))) "-"
               || String.eqb ((snum ++ w) ++ String "/" (upper (rstrip rest))) "" = false)
    by (unfold snum, num; destruct neg; by_cases_on d).
  rewrite Hk.
  rewrite split_head_app
    by (rewrite has_char_app, no_slash_numeral; now apply no_slash_spaces).
  rewrite strip_numeral by exact Hw.
  now rewrite float_of_numeral.
Qed.

End Numeral.

End RatingFacts.

(* ------------------------------------------------------------------ *)
(** ** Numbers written in digits *)

Module DigitFacts.
Import PyNum Normalizer NormalizerSpec TrimFacts RatingFacts.

Lemma digits_first s :
  digits_only s = true -> s <> "" -> exists d r, s = String d r /\ is_digit d = true.
Proof.
  destruct s as [|d r]; [congruence|]. simpl. intros Hd _.
  apply andb_true_iff in Hd as [Hd _]. eauto.
Qed.

Lemma digit_not_c_space c : is_digit c = true -> is_c_space c = false.
Proof. by_cases_on c. Qed.

Lemma c_rstrip_digits s : digits_only s = true -> c_rstrip s = s.
Proof.
  induction s as [|c r IH]; simpl; [reflexivity|]. intros Hd.
  apply andb_true_iff in Hd as [Hc Hr]. rewrite IH by exact Hr.
  destruct r; [now rewrite digit_not_c_space | reflexivity].
Qed.

Lemma c_rstrip_cons c r :
  is_c_space c = false -> c_rstrip (String c r) = String c (c_rstrip r).
Proof. intros Hc. simpl. destruct (c_rstrip r); [now rewrite Hc | reflexivity]. Qed.

(** A numeral, signed or not, has no white space to lose. *)
Lemma c_strip_signed neg s :
  digits_only s = true -> s <> "" -> c_strip (sign_text neg ++ s) = sign_text neg ++ s.
Proof.
  intros Hd Hne. destruct (digits_first Hd Hne) as (d & r & -> & Hc).
  unfold c_strip.
  replace (c_lstrip (sign_text neg ++ String d r)) with (sign_text neg ++ String d r)
    by (destruct neg; simpl; [reflexivity | now rewrite digit_not_c_space]).
  destruct neg; cbn [sign_text append].
  - rewrite c_rstrip_cons by reflexivity. now rewrite c_rstrip_digits.
  - now apply c_rstrip_digits.
Qed.

Lemma scan_sign_signed neg s :
  digits_only s = true -> s <> "" -> scan_sign (sign_text neg ++ s) = (neg, s).
Proof.
  intros Hd Hne. destruct (digits_first Hd Hne) as (d & r & -> & Hc).
  destruct neg; [reflexivity|]. simpl. clear Hd Hne. by_cases_on d.
Qed.

(** [int()] of a run of at most 4300 digits, signed or not. *)
Lemma int_of_digits neg s :
  digits_only s = true -> s <> "" -> (String.length s <= max_str_digits)%nat ->
  int_of_str (sign_text neg ++ s) = Ok (signed neg (decimal_value 0 s)).
Proof.
  intros Hd Hne Hl. unfold int_of_str.
  rewrite c_strip_signed, scan_sign_signed by assumption.
  rewrite <- (append_nil_r s) at 1.
  rewrite scan_digits_run; [|exact Hd|now left].
  destruct (String.length s) as [|n] eqn:El; [now destruct s|].
  cbn [Nat.add].
  replace (max_str_digits <? S n)%nat with false
    by (symmetry; apply Nat.ltb_ge; exact Hl).
  reflexivity.
Qed.

(** A longer run of digits is refused. *)
Lemma int_of_long_digits neg s :
  digits_only s = true -> (max_str_digits < String.length s)%nat ->
  exists msg, int_of_str (sign_text neg ++ s) = Raise (ValueError msg).
Proof.
  intros Hd Hl.
  assert (Hne : s <> "") by (intros ->; simpl in Hl; lia).
  eexists. unfold int_of_str.
  rewrite c_strip_signed, scan_sign_signed by assumption.
  rewrite <- (append_nil_r s) at 1.
  rewrite scan_digits_run; [|exact Hd|now left].
  destruct (String.length s) as [|n] eqn:El; [lia|].
  cbn [Nat.add].
  replace (max_str_digits <? S n)%nat with true
    by (symmetry; apply Nat.ltb_lt; exact Hl).
  reflexivity.
Qed.

(** [float()] of a run of digits, signed or not. *)
Lemma float_of_digits (F : Type) `{PyFloat F} neg s :
  digits_only s = true -> s <> "" ->
  float_of_str (F := F) (sign_text neg ++ s)
  = Ok (of_decimal neg (decimal_value 0 s) 0).
Proof.
  intros Hd Hne. unfold float_of_str.
  rewrite c_strip_signed, scan_sign_signed by assumption.
  destruct (digits_first Hd Hne) as (d & r & -> & Hc).
  assert (Hw : String.eqb (lower (String d r)) "inf"
               || String.eqb (lower (String d r)) "infinity" = false)
    by (clear Hd Hne; by_cases_on d).
  assert (Hn : String.eqb (lower (String d r)) "nan" = false)
    by (clear Hd Hne; by_cases_on d).
  rewrite Hw, Hn.
  rewrite <- (append_nil_r (String d r)) at 1.
  rewrite scan_digits_run; [|exact Hd|now left].
  reflexivity.
Qed.

End DigitFacts.

(* ------------------------------------------------------------------ *)
(** ** The range of the normalized fields *)

Module RangeFacts.
Import PyNum Normalizer NormalizerSpec TrimFacts NormalizerFacts RatingFacts DigitFacts.

Section WithFloat.
Context {F : Type} `{PyFloat F}.

(** C2, amended -- The normalizers return a number on every input and
    clamp nothing.  A rating that is not a string, and a placeholder, are
    [0.0]; otherwise what [float()] or [int()] makes of the cleaned text is
    the result, and the default ([0.0], [0.0], [0]) stands for it when the
    conversion raises.  Hence a number written in decimal digits comes back
    with the value and the sign it is written with, whatever its size:
    [X.Y/5] is [X.Y] also above 5, and a price or a vote count written
    with a minus sign is negative.  The votes read from a text without a
    minus sign are [>= 0]. *)
Theorem normalizers_total_unclamped :
  (forall raw : pyval F, (forall s, raw <> PStr s) -> _parse_rating raw = zero)
  /\ (forall s, placeholder s = true -> _parse_rating (F := F) (PStr s) = zero)
  /\ (forall s, placeholder s = false ->
        _parse_rating (F := F) (PStr s)
        = except_all (float_of_str (strip (split_head "/" (upper (strip s))))) zero)
  /\ (forall raw : pyval F,
        _parse_price raw = except_all (py_float (without_separators raw)) zero
        /\ _parse_votes raw = except_all (py_int (without_separators raw)) 0)
  /\ (forall neg d ip fp w rest,
        is_digit d = true -> digits_only ip = true -> digits_only fp = true ->
        spaces_only w = true ->
        _parse_rating (F := F)
          (PStr ((sign_text neg ++ String d ip ++ String "." fp) ++ w ++ String "/" rest))
        = of_decimal neg (decimal_value 0 (String d ip ++ fp))
                     (- Z.of_nat (String.length fp)))
  /\ (forall neg t s,
        digits_only t = true -> t <> "" ->
        strip (remove_char "," s) = sign_text neg ++ t ->
        _parse_price (F := F) (PStr s) = of_decimal neg (decimal_value 0 t) 0)
  /\ (forall neg t s,
        digits_only t = true -> t <> "" -> (String.length t <= max_str_digits)%nat ->
        strip (remove_char "," s) = sign_text neg ++ t ->
        _parse_votes (F := F) (PStr s) = signed neg (decimal_value 0 t))
  /\ (forall s, has_char "-" s = false -> 0 <= _parse_votes (F := F) (PStr s)).
Proof.
  split; [|split; [|split; [|split; [|split; [|split; [|split]]]]]].
  - intros raw Hn. destruct raw; try reflexivity. now destruct (Hn s).
  - intros s Hp. unfold _parse_rating. unfold placeholder in Hp. now rewrite Hp.
  - intros s Hp. unfold _parse_rating. unfold placeholder in Hp. now rewrite Hp.
  - intros raw. split; reflexivity.
  - intros neg d ip fp w rest Hd Hi Hf Hw. now apply parse_rating_numeral.
  - intros neg t s Hd Hne Hs. unfold _parse_price. cbn [py_float].
    rewrite Hs, float_of_digits by assumption. reflexivity.
  - intros neg t s Hd Hne Hl Hs. unfold _parse_votes. cbn [py_int].
    rewrite Hs, int_of_digits by assumption. reflexivity.
  - intros s Hc. now apply parse_votes_unsigned.
Qed.

End WithFloat.
End RangeFacts.

(* ------------------------------------------------------------------ *)
(** ** The preference filter *)

Module FilterFacts.
Import Retrieval FilterSpec.

Section WithFloat.
Context {F : Type} `{PyFloat F}.
Variable regex : Type.
Variable re_compile : string -> result regex.
Variable re_search : regex -> string -> bool.

Local Abbreviation filter_rows := (filter_restaurants re_compile re_search).

Local Abbreviation regex_match := (FilterSpec.regex_match re_compile re_search).

Lemma select_map (g : row F -> bool) df : select df (map g df) = List.filter g df.
Proof.
  induction df as [|r df IH]; simpl; [reflexivity|]. now rewrite IH.
Qed.

Lemma mask_or_map (g h : row F -> bool) df :
  mask_or (map g df) (map h df) = map (fun r => g r || h r) df.
Proof.
  induction df as [|r df IH]; simpl; [reflexivity|]. now rewrite IH.
Qed.

Lemma str_contains_map (column : row F -> string) pat df m :
  str_contains re_compile re_search column pat df = Ok m ->
  m = map (fun r => regex_match pat (column r)) df.
Proof.
  unfold str_contains, regex_match.
  destruct (re_compile pat) as [rx|e]; simpl; [|discriminate].
  intros E. now injection E as <-.
Qed.

Lemma cuisine_mask_map terms df : forall (g : row F -> bool) m,
  cuisine_mask re_compile re_search terms df (map g df) = Ok m ->
  exists g', m = map g' df
             /\ forall r, g' r = true ->
                          g r = true
                          \/ exists term, In term terms
                                          /\ regex_match term (cuisines_normalized r) = true.
Proof.
  induction terms as [|term rest IH]; simpl; intros g m Hm.
  - injection Hm as <-. exists g. split; [reflexivity | auto].
  - destruct (str_contains _ _ _ term df) as [m1|e] eqn:E1; [|discriminate].
    apply str_contains_map in E1. subst m1. simpl in Hm.
    rewrite mask_or_map in Hm. apply IH in Hm as (g' & -> & Hg').
    exists g'. split; [reflexivity|].
    intros r Hr. apply Hg' in Hr as [Hr | (t & Ht & Hr)].
    + apply orb_true_iff in Hr as [Hr | Hr]; [now left|].
      right. exists term. split; [now left | exact Hr].
    + right. exists t. split; [now right | exact Hr].
Qed.

(** Every line kept by the filter satisfies the active constraints, the
    locality and the cuisine terms being searched as regular expressions. *)
Lemma filter_restaurants_sound df prefs out :
  filter_rows df prefs = Ok out ->
  Forall (satisfies regex_match prefs) out /\ incl out df.
Proof.
  unfold filter_restaurants. intros Hf.
  set (f1 := match min_price prefs with
             | Some p => List.filter (fun r => fge (price_for_two_numeric r) p) df
             | None => df end) in *.
  set (f2 := match max_price prefs with
             | Some p => List.filter (fun r => fle (price_for_two_numeric r) p) f1
             | None => f1 end) in *.
  assert (H1 : forall r, In r f1 ->
             In r df /\ forall p, min_price prefs = Some p ->
                                  fge (price_for_two_numeric r) p = true).
  { subst f1. intros r Hr. destruct (min_price prefs) as [p|].
    - apply filter_In in Hr as [Hr Hp]. split; [exact Hr|].
      intros p' E. now injection E as <-.
    - split; [exact Hr | discriminate]. }
  assert (H2 : forall r, In r f2 ->
             In r f1 /\ forall p, max_price prefs = Some p ->
                                  fle (price_for_two_numeric r) p = true).
  { subst f2. intros r Hr. destruct (max_price prefs) as [p|].
    - apply filter_In in Hr as [Hr Hp]. split; [exact Hr|].
      intros p' E. now injection E as <-.
    - split; [exact Hr | discriminate]. }
  clearbody f1 f2.
  destruct (match locality prefs with
            | Some l => _ | None => Ok f2 end) as [f3|e] eqn:E3; [|discriminate].
  assert (H3 : forall r, In r f3 ->
             In r f2 /\ forall l, locality prefs = Some l -> l <> "" ->
                                  regex_match (lower (strip l)) (location_normalized r) = true).
  { intros r Hr. destruct (locality prefs) as [l|].
    - destruct l as [|c l'].
      + simpl in E3. injection E3 as <-. split; [exact Hr|]. intros l E. now injection E as <-.
      + simpl is_empty in E3. cbv iota in E3.
        destruct (str_contains _ _ _ _ f2) as [m|] eqn:Em; [|discriminate].
        apply str_contains_map in Em. subst m. simpl in E3. injection E3 as <-.
        rewrite select_map in Hr. apply filter_In in Hr as [Hr Hp].
        split; [exact Hr|]. intros l E _. now injection E as <-.
    - injection E3 as <-. split; [exact Hr | discriminate]. }
  cbn [rbind] in Hf. clear E3.
  set (f4 := match min_rating prefs with
             | Some p => List.filter (fun r => fge (rating_numeric r) p) f3
             | None => f3 end) in *.
  assert (H4 : forall r, In r f4 ->
             In r f3 /\ forall p, min_rating prefs = Some p ->
                                  fge (rating_numeric r) p = true).
  { subst f4. intros r Hr. destruct (min_rating prefs) as [p|].
    - apply filter_In in Hr as [Hr Hp]. split; [exact Hr|].
      intros p' E. now injection E as <-.
    - split; [exact Hr | discriminate]. }
  clearbody f4.
  assert (H5 : forall r, In r out ->
             In r f4 /\ forall dc, desired_cuisines prefs = Some dc ->
                                   cuisine_terms_of dc <> [] ->
                                   exists term, In term (cuisine_terms_of dc)
                                     /\ regex_match term (cuisines_normalized r) = true).
  { intros r Hr. destruct (desired_cuisines prefs) as [[|c dc]|].
    - injection Hf as <-. split; [exact Hr|]. intros dc E. injection E as <-. now intros [].
    - destruct (cuisine_terms_of (c :: dc)) as [|t ts] eqn:Et.
      + injection Hf as <-. split; [exact Hr|]. intros dc' E. injection E as <-.
        rewrite Et. now intros [].
      + destruct (cuisine_mask _ _ (t :: ts) f4 _) as [m|] eqn:Em; [|discriminate].
        apply cuisine_mask_map in Em as (g' & -> & Hg').
        cbn [rbind] in Hf. injection Hf as <-.
        rewrite select_map in Hr. apply filter_In in Hr as [Hr Hp].
        split; [exact Hr|]. intros dc' E _. injection E as <-. rewrite Et.
        apply Hg' in Hp as [Hp | Hp]; [discriminate | exact Hp].
    - injection Hf as <-. split; [exact Hr | discriminate]. }
  split.
  - apply Forall_forall. intros r Hr.
    destruct (H5 r Hr) as [Hr4 C5]. destruct (H4 r Hr4) as [Hr3 C4].
    destruct (H3 r Hr3) as [Hr2 C3]. destruct (H2 r Hr2) as [Hr1 C2].
    destruct (H1 r Hr1) as [_ C1]. repeat split; assumption.
  - intros r Hr. apply H1, H2, H3, H4, H5. exact Hr.
Qed.

(** Without any preference the filter returns the frame as it is. *)
Lemma filter_restaurants_no_prefs df prefs :
  min_price prefs = None -> max_price prefs = None -> locality prefs = None ->
  min_rating prefs = None -> desired_cuisines prefs = None ->
  filter_rows df prefs = Ok df.
Proof.
  intros E1 E2 E3 E4 E5. unfold filter_restaurants.
  now rewrite E1, E2, E3, E4, E5.
Qed.

(** Where the regular-expression search of each term of the preferences
    is the search of the term itself (a term without metacharacters), the
    kept lines satisfy the constraints as the specification words them. *)
Lemma filter_restaurants_literal df prefs out :
  (forall term, In term (FilterModel.active_terms prefs) ->
                forall text, regex_match term text = contains term text) ->
  filter_rows df prefs = Ok out ->
  Forall (satisfies contains prefs) out.
Proof.
  intros Hlit Hf. apply filter_restaurants_sound in Hf as [Hs _].
  eapply Forall_impl; [|exact Hs].
  intros r (C1 & C2 & C3 & C4 & C5). repeat split; try assumption.
  - intros l El Hl. rewrite <- Hlit; [now apply C3|].
    unfold FilterModel.active_terms, FilterModel.locality_term. rewrite El.
    destruct l; [congruence|]. now left.
  - intros dc Ed Hd. destruct (C5 dc Ed Hd) as (t & Ht & Hm).
    exists t. split; [exact Ht|]. rewrite <- Hlit; [exact Hm|].
    unfold FilterModel.active_terms, FilterModel.cuisine_terms. rewrite Ed.
    destruct (FilterModel.locality_term prefs); [now right | exact Ht].
Qed.

End WithFloat.

Section FailingInput.
Import XFloat Samples.
Variable regex : Type.
Variable re_compile : string -> result regex.
Variable re_search : regex -> string -> bool.

(** C4 at the failing input -- with the locality [.], which the data
    frame searches as a regular expression matching any character, the line
    of a restaurant located in [BTM] is kept although its locality does not
    contain a dot: the kept line does not satisfy the locality constraint
    of the specification. *)
Theorem locality_dot_keeps_every_line rx :
  re_compile "." = Ok rx ->
  re_search rx "btm" = true ->
  filter_restaurants re_compile re_search (prepare [csv_spice]) dot_prefs
  = Ok (prepare [csv_spice])
  /\ contains "." (location_normalized (prepare_row csv_spice)) = false
  /\ ~ satisfies contains dot_prefs (prepare_row csv_spice).
Proof.
  intros Hc Hs. split; [|split].
  - unfold filter_restaurants, str_contains. simpl.
    change (lower (strip ".")) with ".". change (lower "BTM") with "btm".
    rewrite Hc. simpl. now rewrite Hs.
  - reflexivity.
  - intros (_ & _ & C3 & _).
    specialize (C3 "." eq_refl). discriminate C3. discriminate.
Qed.

End FailingInput.
End FilterFacts.

(* ------------------------------------------------------------------ *)
(** ** The ranker *)

Module RankFacts.
Import Retrieval RankSpec.

(** *** Lawful comparisons *)

Section Lawful.
Variables A B : Type.

Lemma lawful_refl (cmp : A -> A -> comparison) :
  lawful cmp -> forall a, cmp a a = Eq.
Proof.
  intros L a. pose proof (cmp_opp L a a) as E.
  destruct (cmp a a); simpl in E; congruence.
Qed.

Lemma lawful_flip (cmp : A -> A -> comparison) :
  lawful cmp -> lawful (fun a b => cmp b a).
Proof.
  intros L. split.
  - intros a b. apply (cmp_opp L).
  - intros a b c E.
    rewrite (cmp_opp L a c), (cmp_opp L b c). f_equal.
    apply (cmp_eq_l L). rewrite (cmp_opp L), E. reflexivity.
  - intros a b c E1 E2. apply (cmp_lt_trans L) with b; assumption.
Qed.

Lemma lawful_on (f : B -> A) (cmp : A -> A -> comparison) :
  lawful cmp -> lawful (fun x y => cmp (f x) (f y)).
Proof.
  intros L. split; intros.
  - apply (cmp_opp L).
  - now apply (cmp_eq_l L).
  - now apply (cmp_lt_trans L) with (f b).
Qed.

Lemma lawful_gt_lt (cmp : A -> A -> comparison) :
  lawful cmp -> forall a b, cmp a b = Gt <-> cmp b a = Lt.
Proof.
  intros L a b. rewrite (cmp_opp L a b).
  destruct (cmp a b); simpl; split; congruence.
Qed.

Lemma lawful_lt_eq (cmp : A -> A -> comparison) :
  lawful cmp -> forall a b c, cmp a b = Lt -> cmp b c = Eq -> cmp a c = Lt.
Proof.
  intros L a b c E1 E2.
  assert (E3 : cmp c b = Eq) by (rewrite (cmp_opp L), E2; reflexivity).
  pose proof (cmp_eq_l L _ _ a E3) as E4.
  rewrite (cmp_opp L a c), (cmp_opp L a b), E1 in E4. simpl in E4.
  destruct (cmp a c); simpl in E4; congruence.
Qed.

Lemma lawful_lex (c1 c2 : A -> A -> comparison) :
  lawful c1 -> lawful c2 -> lawful (fun a b => lex (c1 a b) (c2 a b)).
Proof.
  intros L1 L2. split.
  - intros a b. rewrite (cmp_opp L1 a b), (cmp_opp L2 a b).
    destruct (c1 a b); reflexivity.
  - intros a b c E. unfold lex in *.
    destruct (c1 a b) eqn:E1; try discriminate.
    rewrite (cmp_eq_l L1 _ _ c E1), (cmp_eq_l L2 _ _ c E). reflexivity.
  - intros a b c Eab Ebc. unfold lex in *.
    destruct (c1 a b) eqn:E1; try discriminate.
    + rewrite (cmp_eq_l L1 _ _ c E1).
      destruct (c1 b c) eqn:E2; try discriminate; [|reflexivity].
      now apply (cmp_lt_trans L2) with b.
    + destruct (c1 b c) eqn:E2; try discriminate.
      * now rewrite (lawful_lt_eq L1 _ _ _ E1 E2).
      * now rewrite (cmp_lt_trans L1 _ _ _ E1 E2).
Qed.

(** The preorder of a lawful comparison. *)
Lemma lawful_le_trans (cmp : A -> A -> comparison) :
  lawful cmp -> forall a b c, cmp a b <> Gt -> cmp b c <> Gt -> cmp a c <> Gt.
Proof.
  intros L a b c Hab Hbc.
  destruct (cmp a b) eqn:E1; [| |congruence].
  - now rewrite (cmp_eq_l L _ _ c E1).
  - destruct (cmp b c) eqn:E2; [| |congruence].
    + rewrite (lawful_lt_eq L _ _ _ E1 E2). discriminate.
    + rewrite (cmp_lt_trans L _ _ _ E1 E2). discriminate.
Qed.

End Lawful.

Lemma lawful_Z_compare : lawful Z.compare.
Proof.
  split.
  - intros a b. apply Z.compare_antisym.
  - intros a b c E. apply Z.compare_eq in E. now subst.
  - intros a b c E1 E2. rewrite Z.compare_lt_iff in *. lia.
Qed.

(** *** Lists *)

Section Lists.
Variables A B : Type.

Lemma In_firstn (y : A) n : forall l, In y (firstn n l) -> In y l.
Proof.
  induction n as [|n IH]; intros [|x l]; simpl; try tauto.
  intros [E|Hy]; [now left | right; now apply IH].
Qed.

Lemma StronglySorted_firstn (R : A -> A -> Prop) n : forall l,
  StronglySorted R l -> StronglySorted R (firstn n l).
Proof.
  induction n as [|n IH]; intros l Hs; simpl; [constructor|].
  destruct l as [|x l]; [constructor|].
  inversion Hs as [|? ? Hl Hx]; subst.
  constructor; [now apply IH|].
  apply Forall_forall. intros y Hy.
  rewrite Forall_forall in Hx. apply Hx.
  now apply In_firstn in Hy.
Qed.

(** A sorted list stays sorted through a map that respects the order on
    the elements of the list. *)
Lemma StronglySorted_map (f : A -> B) (RA : A -> A -> Prop)
      (RB : B -> B -> Prop) (good : A -> Prop) l :
  (forall x y, good x -> good y -> RA x y -> RB (f x) (f y)) ->
  Forall good l ->
  StronglySorted RA l -> StronglySorted RB (map f l).
Proof.
  intros Hf Hg. induction 1 as [|x l Hs IH Hx]; simpl; [constructor|].
  inversion Hg as [|? ? Gx Gl]; subst.
  constructor; [now apply IH|].
  apply Forall_map. rewrite Forall_forall in *.
  intros y Hy. apply Hf; auto.
Qed.

Lemma head_sorted (R : A -> A -> Prop) n l :
  StronglySorted R l -> StronglySorted R (head n l).
Proof. unfold head. destruct (0 <=? n); apply StronglySorted_firstn. Qed.

Lemma head_length n (l : list A) :
  0 <= n -> length (head n l) = Z.to_nat (Z.min n (Z.of_nat (length l))).
Proof.
  intros Hn. unfold head. replace (0 <=? n) with true by lia.
  rewrite length_firstn. lia.
Qed.

(** A negative bound drops that many lines from the end. *)
Lemma head_length_neg n (l : list A) :
  n < 0 -> length (head n l) = Z.to_nat (Z.of_nat (length l) + n).
Proof.
  intros Hn. unfold head. replace (0 <=? n) with false by lia.
  rewrite length_firstn. lia.
Qed.

Lemma head_map (f : A -> B) n l : map f (head n l) = head n (map f l).
Proof.
  unfold head. rewrite length_map. destruct (0 <=? n); symmetry; apply firstn_map.
Qed.

Lemma head_incl n (l : list A) : incl (head n l) l.
Proof. intros x. unfold head. destruct (0 <=? n); apply In_firstn. Qed.

Lemma filter_map (f : A -> B) (p : B -> bool) l :
  List.filter p (map f l) = map f (List.filter (fun x => p (f x)) l).
Proof.
  induction l as [|x l IH]; simpl; [reflexivity|].
  destruct (p (f x)); simpl; now rewrite IH.
Qed.

Lemma filter_head (p : A -> bool) n l :
  exists rest, List.filter p l = (List.filter p (head n l) ++ rest)%list.
Proof.
  unfold head. destruct (0 <=? n).
  - exists (List.filter p (skipn (Z.to_nat n) l)).
    now rewrite <- filter_app, firstn_skipn.
  - exists (List.filter p (skipn (length l - Z.to_nat (- n)) l)).
    now rewrite <- filter_app, firstn_skipn.
Qed.

End Lists.

(** *** The comparison of the code and the order of the specification *)

Lemma lex_not_gt c1 c2 : lex c1 c2 <> Gt <-> c1 = Lt \/ (c1 = Eq /\ c2 <> Gt).
Proof. destruct c1; simpl; intuition congruence. Qed.

Lemma not_gt c : c <> Gt <-> c = Lt \/ c = Eq.
Proof. destruct c; intuition congruence. Qed.

Section WithFloat.
Context {F : Type} `{PyFloatOrder F}.
Variable log1p : F -> F.

Lemma lawful_fcmp : lawful (fcmp (F := F)).
Proof. split; [apply fcmp_opp | apply fcmp_eq_l | apply fcmp_lt_trans]. Qed.

Lemma lawful_col_cmp_float ascending : lawful (col_cmp_float (F := F) ascending).
Proof.
  assert (L : lawful (fun a b : F => if ascending then fcmp a b else fcmp b a)).
  { destruct ascending; [apply lawful_fcmp | apply lawful_flip, lawful_fcmp]. }
  unfold col_cmp_float. split.
  - intros a b. destruct (is_nan a), (is_nan b); try reflexivity. apply (cmp_opp L).
  - intros a b c. destruct (is_nan a), (is_nan b), (is_nan c); try congruence.
    apply (cmp_eq_l L).
  - intros a b c. destruct (is_nan a), (is_nan b), (is_nan c); try congruence.
    apply (cmp_lt_trans L).
Qed.

Lemma lawful_col_cmp_int ascending : lawful (col_cmp_int ascending).
Proof.
  unfold col_cmp_int.
  destruct ascending; [apply lawful_Z_compare | apply lawful_flip, lawful_Z_compare].
Qed.

(** The four sort columns of a line, and their comparison. *)
Local Abbreviation key := (F * F * Z * F)%type.
Local Abbreviation key_order :=
  (fun k1 k2 : key =>
     key_cmp (fst (fst (fst k1))) (snd (fst (fst k1))) (snd (fst k1)) (snd k1)
             (fst (fst (fst k2))) (snd (fst (fst k2))) (snd (fst k2)) (snd k2)).
Local Abbreviation row_key :=
  (fun x : scored_row F =>
     (score_col x, rating_numeric (line x), votes_numeric (line x),
      price_for_two_numeric (line x))).
Local Abbreviation restaurant_key :=
  (fun (s : F) (a : Restaurant F) => (s, rating a, votes a, price_for_two a)).

Lemma lawful_key_order : lawful key_order.
Proof.
  unfold key_cmp.
  apply (@lawful_lex key
           (fun k1 k2 : key => col_cmp_float false (fst (fst (fst k1))) (fst (fst (fst k2))))
           (fun k1 k2 : key =>
              lex (col_cmp_float false (snd (fst (fst k1))) (snd (fst (fst k2))))
                  (lex (col_cmp_int false (snd (fst k1)) (snd (fst k2)))
                       (col_cmp_float true (snd k1) (snd k2))))).
  - apply (lawful_on (fun k : key => fst (fst (fst k)))), lawful_col_cmp_float.
  - apply (@lawful_lex key
             (fun k1 k2 : key => col_cmp_float false (snd (fst (fst k1))) (snd (fst (fst k2))))
             (fun k1 k2 : key =>
                lex (col_cmp_int false (snd (fst k1)) (snd (fst k2)))
                    (col_cmp_float true (snd k1) (snd k2)))).
    + apply (lawful_on (fun k : key => snd (fst (fst k)))), lawful_col_cmp_float.
    + apply (@lawful_lex key
               (fun k1 k2 : key => col_cmp_int false (snd (fst k1)) (snd (fst k2)))
               (fun k1 k2 : key => col_cmp_float true (snd k1) (snd k2))).
      * apply (lawful_on (fun k : key => snd (fst k))), lawful_col_cmp_int.
      * apply (lawful_on (fun k : key => snd k)), lawful_col_cmp_float.
Qed.

Lemma lawful_row_cmp : lawful (row_cmp (F := F)).
Proof. exact (lawful_on row_key lawful_key_order). Qed.

(** *** The stable sort *)

Local Abbreviation rle := (fun x y : scored_row F => row_cmp x y <> Gt).

Lemma insert_row_perm (x : scored_row F) l : Permutation (insert_row x l) (x :: l).
Proof.
  induction l as [|y r IH]; simpl; [reflexivity|].
  destruct (row_cmp x y); try reflexivity.
  rewrite IH. apply perm_swap.
Qed.

Lemma sort_values_perm (l : list (scored_row F)) : Permutation (sort_values l) l.
Proof.
  induction l as [|x l IH]; simpl; [reflexivity|].
  unfold sort_values in IH. rewrite insert_row_perm. now constructor.
Qed.

Lemma insert_row_sorted x l :
  StronglySorted rle l -> StronglySorted rle (insert_row x l).
Proof.
  pose proof lawful_row_cmp as L.
  induction 1 as [|y r Hs IH Hy]; simpl.
  - repeat constructor.
  - destruct (row_cmp x y) eqn:E.
    + constructor; [now constructor|].
      constructor; [congruence|].
      eapply Forall_impl; [|exact Hy]. intros z Hz.
      apply (lawful_le_trans L) with y; congruence.
    + constructor; [now constructor|].
      constructor; [congruence|].
      eapply Forall_impl; [|exact Hy]. intros z Hz.
      apply (lawful_le_trans L) with y; congruence.
    + constructor; [exact IH|].
      eapply Permutation_Forall; [symmetry; apply insert_row_perm|].
      constructor; [|exact Hy].
      apply (lawful_gt_lt L) in E. congruence.
Qed.

Lemma sort_values_sorted (l : list (scored_row F)) : StronglySorted rle (sort_values l).
Proof.
  induction l as [|x l IH]; simpl; [constructor|].
  now apply insert_row_sorted.
Qed.

(** *** The score column *)

(** The score column of a line holds the score of the line. *)
Local Abbreviation scored_ok :=
  (fun x : scored_row F => score log1p (line x) = Ok (score_col x)).
Local Abbreviation has_score :=
  (fun r : row F => exists s, score log1p r = Ok s).
Local Abbreviation ranked := (fun x : scored_row F => to_restaurant (line x)).

Lemma add_scores_spec df : forall d,
  add_scores log1p df = Ok d -> map (@line F) d = df /\ Forall scored_ok d.
Proof.
  induction df as [|r df IH]; simpl; intros d Hd.
  - injection Hd as <-. split; [reflexivity | constructor].
  - destruct (score log1p r) as [s|] eqn:Es; [|discriminate]. cbn [rbind] in Hd.
    destruct (add_scores log1p df) as [l|]; [|discriminate]. cbn [rbind] in Hd.
    injection Hd as <-. destruct (IH l eq_refl) as [Hm Hf].
    split; [simpl; now rewrite Hm | constructor; [exact Es | exact Hf]].
Qed.

Lemma add_scores_total df :
  Forall has_score df -> exists d, add_scores log1p df = Ok d.
Proof.
  induction 1 as [|r df [s Hs] _ [d Hd]]; simpl; [now exists []|].
  rewrite Hs, Hd. simpl. eauto.
Qed.

(** The assignment of the score column fails with the error of the first
    line whose score cannot be computed. *)
Lemma add_scores_fails df e :
  add_scores log1p df = Raise e ->
  exists pre r post,
    df = (pre ++ r :: post)%list /\ Forall has_score pre /\ score log1p r = Raise e.
Proof.
  induction df as [|r df IH]; simpl; [discriminate|].
  destruct (score log1p r) as [s|e'] eqn:Es; cbn [rbind].
  - destruct (add_scores log1p df) as [l|e'']; cbn [rbind]; [discriminate|].
    intros E. injection E as ->.
    destruct (IH eq_refl) as (pre & r' & post & -> & Hpre & Hr).
    exists (r :: pre), r', post. repeat split; [|exact Hr].
    constructor; [now exists s | exact Hpre].
  - intros E. injection E as ->. exists [], r, df. repeat split; [constructor | exact Es].
Qed.

Lemma restaurant_score_ranked x :
  scored_ok x -> restaurant_score log1p (ranked x) = Ok (score_col x).
Proof. intros Hx. exact Hx. Qed.

Lemma col_desc_lt x y : col_cmp_float false x y = Lt <-> before_desc x y.
Proof.
  unfold col_cmp_float, before_desc. rewrite (fcmp_opp x y).
  destruct (is_nan x), (is_nan y), (fcmp x y); simpl;
    intuition (try discriminate; try reflexivity).
Qed.

Lemma col_asc_lt x y : col_cmp_float true x y = Lt <-> before_asc x y.
Proof.
  unfold col_cmp_float, before_asc.
  destruct (is_nan x), (is_nan y), (fcmp x y); simpl;
    intuition (try discriminate; try reflexivity).
Qed.

Lemma col_eq asc x y : col_cmp_float asc x y = Eq <-> tie x y.
Proof.
  unfold col_cmp_float, tie. rewrite (fcmp_opp x y).
  destruct asc, (is_nan x), (is_nan y), (fcmp x y); simpl;
    intuition (try discriminate; try reflexivity).
Qed.

Lemma col_int_desc_lt x y : col_cmp_int false x y = Lt <-> x > y.
Proof. unfold col_cmp_int. rewrite Z.compare_lt_iff. lia. Qed.

Lemma col_int_desc_eq x y : col_cmp_int false x y = Eq <-> x = y.
Proof. unfold col_cmp_int. rewrite Z.compare_eq_iff. split; congruence. Qed.

Lemma ranked_before_iff a b sa sb :
  restaurant_score log1p a = Ok sa -> restaurant_score log1p b = Ok sb ->
  restaurant_cmp sa sb a b <> Gt <-> ranked_before log1p a b.
Proof.
  intros Ha Hb. unfold ranked_before. split.
  - intros Hc. exists sa, sb. split; [exact Ha|]. split; [exact Hb|].
    revert Hc. unfold restaurant_cmp, key_cmp.
    rewrite !lex_not_gt, not_gt.
    rewrite !col_desc_lt, col_asc_lt, !col_eq, col_int_desc_lt, col_int_desc_eq.
    tauto.
  - intros (sa' & sb' & Ha' & Hb' & Hc).
    assert (sa' = sa) by congruence. assert (sb' = sb) by congruence. subst sa' sb'.
    revert Hc. unfold restaurant_cmp, key_cmp.
    rewrite !lex_not_gt, not_gt.
    rewrite !col_desc_lt, col_asc_lt, !col_eq, col_int_desc_lt, col_int_desc_eq.
    tauto.
Qed.

Lemma ranked_sorted d :
  Forall scored_ok d ->
  StronglySorted rle d -> StronglySorted (ranked_before log1p) (map ranked d).
Proof.
  apply StronglySorted_map. intros x y Hx Hy Hxy.
  eapply ranked_before_iff;
    [exact (restaurant_score_ranked Hx) | exact (restaurant_score_ranked Hy) | exact Hxy].
Qed.

(** *** C5 and C6 *)

Lemma rank_restaurants_eq df N :
  rank_restaurants log1p df N
  = rbind (add_scores log1p df) (fun d => Ok (map ranked (head N (sort_values d)))).
Proof.
  destruct df as [|x l]; [|reflexivity].
  simpl. unfold head. destruct (0 <=? N); simpl; rewrite ?firstn_nil; reflexivity.
Qed.

(** What a successful ranking returns. *)
Lemma rank_restaurants_ok df N out :
  rank_restaurants log1p df N = Ok out ->
  exists d,
    add_scores log1p df = Ok d /\ map (@line F) d = df /\ Forall scored_ok d
    /\ out = map ranked (head N (sort_values d)).
Proof.
  rewrite rank_restaurants_eq.
  destruct (add_scores log1p df) as [d|] eqn:Ed; [|discriminate].
  cbn [rbind]. intros E. injection E as <-.
  destruct (add_scores_spec _ Ed) as [Hm Hf]. now exists d.
Qed.

(** C5, amended -- Ranking.  On a frame every line of which has a score
    ([log1p] accepts the vote count), and for every bound [N],
    [rank_restaurants] returns a sequence ordered by score descending, then
    rating descending, then votes descending, then price ascending, with
    [score = rating * 2.0 + log1p(max(votes, 0))]; the sequence consists of
    the first lines of a sorted rearrangement of the input; its length is
    [min(N, len(df))] for a bound [N >= 0] and [max(len(df) + N, 0)] for a
    bound [N < 0], which drops the last [-N] lines; and the ranking of an
    empty frame is the empty list. *)
Theorem rank_sorted_and_bounded df N :
  (Forall has_score df ->
   exists out,
     rank_restaurants log1p df N = Ok out
     /\ StronglySorted (ranked_before log1p) out
     /\ (exists sorted,
           Permutation sorted df
           /\ StronglySorted (ranked_before log1p) (map to_restaurant sorted)
           /\ out = map to_restaurant (head N sorted))
     /\ (0 <= N -> length out = Z.to_nat (Z.min N (Z.of_nat (length df))))
     /\ (N < 0 -> length out = Z.to_nat (Z.of_nat (length df) + N)))
  /\ (forall r,
        score log1p r
        = rbind (of_int (Z.max (votes_numeric r) 0)) (fun x =>
          Ok (fadd (fmul (rating_numeric r) (of_decimal false 20 (-1))) (log1p x))))
  /\ rank_restaurants log1p [] N = Ok [].
Proof.
  split; [|split].
  - intros Hs. destruct (add_scores_total Hs) as [d Hd].
    destruct (add_scores_spec _ Hd) as [Hm Hf].
    assert (Hfs : Forall scored_ok (sort_values d))
      by (eapply Permutation_Forall; [symmetry; apply sort_values_perm | exact Hf]).
    exists (map ranked (head N (sort_values d))).
    split; [rewrite rank_restaurants_eq, Hd; reflexivity|].
    split; [|split; [|split]].
    + apply ranked_sorted.
      * rewrite Forall_forall in *. intros x Hx. apply Hfs. now apply head_incl in Hx.
      * apply head_sorted, sort_values_sorted.
    + exists (map (@line F) (sort_values d)). split; [|split].
      * rewrite <- Hm. apply Permutation_map, sort_values_perm.
      * rewrite map_map. apply ranked_sorted; [exact Hfs | apply sort_values_sorted].
      * rewrite <- head_map, map_map. reflexivity.
    + intros HN. rewrite length_map, head_length by exact HN.
      rewrite (Permutation_length (sort_values_perm d)), <- Hm, length_map. reflexivity.
    + intros HN. rewrite length_map, head_length_neg by exact HN.
      rewrite (Permutation_length (sort_values_perm d)), <- Hm, length_map. reflexivity.
  - intros r. unfold score, score_of, log1p_votes.
    destruct (of_int (Z.max (votes_numeric r) 0)); reflexivity.
  - reflexivity.
Qed.

(** The lines tied with one another keep their order through the sort. *)
Lemma filter_insert_row (p : scored_row F -> bool) x l :
  (forall y, In y l -> p x = true -> p y = true -> row_cmp x y <> Gt) ->
  List.filter p (insert_row x l) = List.filter p (x :: l).
Proof.
  induction l as [|y r IH]; intros Hp; [reflexivity|].
  simpl insert_row. destruct (row_cmp x y) eqn:E; try reflexivity.
  simpl. simpl in IH. rewrite IH by (intros z Hz; apply Hp; now right).
  destruct (p x) eqn:Px, (p y) eqn:Py; try reflexivity.
  exfalso. apply (Hp y); solve [now left | reflexivity | assumption].
Qed.

Lemma filter_sort_values (p : scored_row F -> bool) l :
  (forall x y, In x l -> In y l -> p x = true -> p y = true -> row_cmp x y = Eq) ->
  List.filter p (sort_values l) = List.filter p l.
Proof.
  induction l as [|x l IH]; intros Hp; [reflexivity|].
  change (sort_values (x :: l)) with (insert_row x (sort_values l)).
  rewrite filter_insert_row.
  - simpl. rewrite IH; [reflexivity|].
    intros a b Ha Hb. apply Hp; now right.
  - intros y Hy Px Py. rewrite (Hp x y); [discriminate | now left | | exact Px | exact Py].
    right. eapply Permutation_in; [apply sort_values_perm | exact Hy].
Qed.

Lemma tied_keys a x sa :
  restaurant_score log1p a = Ok sa -> scored_ok x ->
  tied log1p a (ranked x) = true ->
  key_order (restaurant_key sa a) (row_key x) = Eq.
Proof.
  intros Ha Hx. unfold tied. rewrite Ha, (restaurant_score_ranked Hx).
  unfold restaurant_cmp. simpl.
  destruct (key_cmp _ _ _ _ _ _ _ _); [reflexivity | discriminate..].
Qed.

Lemma rank_stable df N a out :
  rank_restaurants log1p df N = Ok out ->
  exists rest,
    List.filter (tied log1p a) (map to_restaurant df)
    = (List.filter (tied log1p a) out ++ rest)%list.
Proof.
  intros Hr. destruct (rank_restaurants_ok _ _ Hr) as (d & _ & Hm & Hf & ->).
  rewrite <- Hm, map_map, !filter_map.
  set (p := fun x => tied log1p a (ranked x)).
  destruct (filter_head p N (sort_values d)) as [rest Hrest].
  exists (map ranked rest).
  rewrite <- map_app, <- Hrest. f_equal. symmetry.
  apply filter_sort_values. subst p. cbv beta. intros x y Hx Hy Px Py.
  rewrite Forall_forall in Hf.
  destruct (restaurant_score log1p a) as [sa|] eqn:Ha;
    [|unfold tied in Px; rewrite Ha in Px; discriminate].
  pose proof (tied_keys a Ha (Hf x Hx) Px) as Kx.
  pose proof (tied_keys a Ha (Hf y Hy) Py) as Ky.
  pose proof (cmp_eq_l lawful_key_order _ _ (row_key y) Kx) as E.
  unfold row_cmp. simpl in *. congruence.
Qed.

End WithFloat.
End RankFacts.

(* ------------------------------------------------------------------ *)
(** ** The exact floats are ordered *)

Module XFloatFacts.
Import XFloat.

Lemma x_cmp_opp a b : x_cmp b a = CompOpp (x_cmp a b).
Proof.
  destruct a as [p|[]|], b as [q|[]|]; try reflexivity.
  simpl. symmetry. apply Qcompare_antisym.
Qed.

Lemma x_cmp_eq_l a b c : x_cmp a b = Eq -> x_cmp a c = x_cmp b c.
Proof.
  destruct a as [p|[]|], b as [q|[]|]; simpl; try discriminate; try reflexivity.
  intros E. apply Qeq_alt in E.
  destruct c as [r|[]|]; simpl; try reflexivity.
  now rewrite E.
Qed.

Lemma x_cmp_lt_trans a b c : x_cmp a b = Lt -> x_cmp b c = Lt -> x_cmp a c = Lt.
Proof.
  destruct a as [p|[]|], b as [q|[]|], c as [r|[]|]; simpl;
    try discriminate; try reflexivity.
  intros E1 E2. apply Qlt_alt in E1. apply Qlt_alt in E2. apply Qlt_alt.
  now apply Qlt_trans with q.
Qed.

#[export] Instance xfloat_order : @PyFloatOrder xfloat _.
Proof.
  split; [exact x_cmp_opp | exact x_cmp_eq_l | exact x_cmp_lt_trans].
Qed.

End XFloatFacts.

(* ------------------------------------------------------------------ *)
(** ** The pipelines *)

Module PipelineFacts.
Import Retrieval Recommender Prompt Client Pipeline PipelineSpec RankSpec.

Section WithFloat.
Context {F : Type} `{PyFloat F}.
Variable regex : Type.
Variable re_compile : string -> result regex.
Variable re_search : regex -> string -> bool.
Variable log1p : F -> F.
Variable json_loads : string -> result (json F).
Variable repr_container : json F -> string.

Local Abbreviation candidates_of :=
  (get_recommendations re_compile re_search log1p).
Local Abbreviation pipeline :=
  (get_llm_recommendations re_compile re_search log1p json_loads repr_container).
Local Abbreviation parse := (_parse_llm_response json_loads repr_container).

(** The deterministic engine reads the data file and nothing else. *)
Lemma get_recommendations_run prefs n (w : world F) tr :
  candidates_of prefs n w tr
  = (rbind (filter_restaurants re_compile re_search (prepare (csv_rows w)) prefs)
           (fun filtered => rank_restaurants log1p filtered n),
     (tr ++ [EvReadCsv])%list).
Proof.
  unfold get_recommendations, load_prepared_dataframe, bind, emit, ask, ret, lift.
  simpl. now destruct (filter_restaurants _ _ _ _).
Qed.

Lemma load_groq_config_missing (w : world F) tr :
  has_api_key w = false -> load_groq_config w tr = (Raise config_error, tr).
Proof.
  unfold has_api_key, load_groq_config, bind, ask, raise.
  destruct (getenv w "GROQ_API_KEY") as [[|c k]|]; try discriminate; reflexivity.
Qed.

Lemma load_groq_config_present (w : world F) tr :
  has_api_key w = true -> exists config, load_groq_config w tr = (Ok config, tr).
Proof.
  unfold has_api_key, load_groq_config, bind, ask, ret.
  destruct (getenv w "GROQ_API_KEY") as [[|c k]|]; try discriminate.
  intros _. eexists. reflexivity.
Qed.

Lemma chat_run config messages (w : world F) tr :
  chat json_loads repr_container config messages w tr
  = (chat_result json_loads repr_container (post w (chat_request config messages)),
     (tr ++ [EvPost (chat_request config messages)])%list).
Proof.
  unfold chat, chat_result, bind, emit, ask, lift, raise, ret. simpl.
  destruct (post w _) as [r|e]; simpl; [|reflexivity].
  destruct (negb (status_code r =? 200)); [reflexivity|].
  destruct (json_loads (text r)) as [data|e]; simpl; [|reflexivity].
  destruct (content_of data) as [c|[]]; reflexivity.
Qed.

(** The whole pipeline, step by step. *)
Lemma pipeline_no_candidates prefs mc mr (w : world F) :
  fst (run (candidates_of prefs mc) w) = Ok [] ->
  run (pipeline prefs mc mr) w = (Ok [], [EvReadCsv]).
Proof.
  unfold run, get_llm_recommendations, bind.
  rewrite get_recommendations_run. simpl.
  destruct (rbind _ _) as [cands|]; [|discriminate].
  intros E. injection E as ->. reflexivity.
Qed.

Lemma pipeline_failed_retrieval prefs mc mr (w : world F) e :
  fst (run (candidates_of prefs mc) w) = Raise e ->
  run (pipeline prefs mc mr) w = (Raise e, [EvReadCsv]).
Proof.
  unfold run, get_llm_recommendations, bind.
  rewrite get_recommendations_run. simpl.
  destruct (rbind _ _) as [cands|]; [discriminate|].
  intros E. injection E as ->. reflexivity.
Qed.

Lemma pipeline_missing_key prefs mc mr (w : world F) cands :
  has_api_key w = false ->
  fst (run (candidates_of prefs mc) w) = Ok cands -> cands <> [] ->
  run (pipeline prefs mc mr) w = (Raise config_error, [EvReadCsv]).
Proof.
  intros Hk. unfold run, get_llm_recommendations, bind.
  rewrite get_recommendations_run. simpl.
  destruct (rbind _ _) as [cs|]; [|discriminate].
  intros E Hne. injection E as ->.
  destruct cands as [|c cs]; [congruence|].
  unfold GroqClient. now rewrite (load_groq_config_missing _ _ Hk).
Qed.

Lemma pipeline_with_key prefs mc mr (w : world F) cands :
  has_api_key w = true ->
  fst (run (candidates_of prefs mc) w) = Ok cands -> cands <> [] ->
  exists rq,
    run (pipeline prefs mc mr) w
    = (rbind (chat_result json_loads repr_container (post w rq)) (fun raw =>
       rbind (as_text raw) (fun raw_text => parse raw_text cands)),
       [EvReadCsv; EvPost rq]).
Proof.
  intros Hk. unfold run, get_llm_recommendations, bind.
  rewrite get_recommendations_run. simpl.
  destruct (rbind _ _) as [cs|]; [|discriminate].
  intros E Hne. injection E as ->.
  destruct cands as [|c cs]; [congruence|].
  unfold GroqClient.
  destruct (load_groq_config_present w [EvReadCsv] Hk) as [config ->].
  rewrite chat_run.
  exists (chat_request config (build_messages prefs (c :: cs) mr)). simpl.
  destruct (chat_result json_loads repr_container (post w _)) as [raw|]; simpl; [|reflexivity].
  unfold lift. destruct (as_text raw); reflexivity.
Qed.

(** C9, amended -- While [GROQ_API_KEY] is missing or empty, no run of the
    pipeline sends anything to the network, and loading the configuration
    raises the configuration error at once; [get_llm_recommendations]
    raises that error as soon as the deterministic engine has found a
    candidate, and returns the empty list, without an error, when it has
    found none. *)
Theorem credential_checked_before_network prefs mc mr (w : world F) :
  has_api_key w = false ->
  no_network (snd (run (pipeline prefs mc mr) w))
  /\ (forall tr, load_groq_config w tr = (Raise config_error, tr))
  /\ (forall cands,
        fst (run (candidates_of prefs mc) w) = Ok cands -> cands <> [] ->
        fst (run (pipeline prefs mc mr) w) = Raise config_error)
  /\ (fst (run (candidates_of prefs mc) w) = Ok [] ->
      fst (run (pipeline prefs mc mr) w) = Ok []).
Proof.
  intros Hk. split; [|split; [|split]].
  - destruct (fst (run (candidates_of prefs mc) w)) as [[|c cs]|e] eqn:E.
    + now rewrite (pipeline_no_candidates _ _ mr _ E).
    + rewrite (pipeline_missing_key _ _ mr _ Hk E); [reflexivity | discriminate].
    + now rewrite (pipeline_failed_retrieval _ _ mr _ E).
  - intros tr. now apply load_groq_config_missing.
  - intros cands E Hne. now rewrite (pipeline_missing_key _ _ mr _ Hk E Hne).
  - intros E. now rewrite (pipeline_no_candidates _ _ mr _ E).
Qed.

(** The parser on a response whose payload is an object. *)
Lemma parse_response_items (R : Type) raw block kv (candidates : list R) :
  _extract_json_block raw = Ok block ->
  json_loads block = Ok (JObj kv) ->
  _parse_llm_response json_loads repr_container raw candidates
  = rbind (py_iter (dict_get kv "recommendations" (JArr [])))
          (fun items => parse_items repr_container candidates items []).
Proof.
  intros Hx Hl. unfold _parse_llm_response. now rewrite Hx; cbn [rbind]; rewrite Hl.
Qed.

(** The loop returns as soon as no entry makes it raise. *)
Lemma parse_items_total (R : Type) (candidates : list R) items : forall acc,
  (forall item e, In item items -> parse_item repr_container candidates item <> Raises e) ->
  parse_items repr_container candidates items acc
  = Ok (acc ++ recommendations_of repr_container candidates items)%list.
Proof.
  induction items as [|item rest IH]; intros acc Hn; simpl.
  - now rewrite app_nil_r.
  - pose proof (ParserFacts.parse_item_spec repr_container candidates item) as Hs.
    destruct (parse_item repr_container candidates item) as [e| |r] eqn:E.
    + now destruct (Hn item e (or_introl eq_refl)).
    + rewrite Hs. apply IH. intros i e Hi. apply Hn. now right.
    + rewrite Hs, IH by (intros i e Hi; apply Hn; now right).
      now rewrite <- app_assoc.
Qed.

(** The recommendations of a list of entries that name candidates. *)
Lemma recommendations_of_named (R : Type) (candidates : list R) items out :
  Forall2 (fun item rec =>
             exists idx why,
               item = entry (Z.of_nat idx) why
               /\ nth_error candidates idx = Some (restaurant rec)
               /\ reason rec = strip why) items out ->
  recommendations_of repr_container candidates items = out
  /\ forall item e, In item items -> parse_item repr_container candidates item <> Raises e.
Proof.
  induction 1 as [|item rec items out (idx & why & -> & Hn & Hr) _ [IH1 IH2]].
  - split; [reflexivity | intros item e []].
  - pose proof (ParserFacts.parse_item_entry repr_container candidates idx why Hn) as He.
    pose proof (ParserFacts.parse_item_spec repr_container candidates
                  (entry (Z.of_nat idx) why)) as Hs.
    rewrite He in Hs. split.
    + cbn [recommendations_of]. rewrite Hs, IH1. f_equal.
      destruct rec as [c r]. simpl in *. now subst r.
    + intros item e [<- | Hi]; [now rewrite He | now apply IH2].
Qed.

(** C10 -- The parser returns one recommendation per valid entry, in the
    order of the response.  For a response whose payload is an object with
    the list [items] under [recommendations], none of which makes the loop
    raise, [_parse_llm_response] returns [recommendations_of items]; when
    every entry names a candidate, the result lists these candidates entry
    by entry, with the trimmed reasons, so that it is as long as the list
    of the response, and [n] copies of an entry give [n] recommendations
    of the same candidate; and [get_llm_recommendations] returns what the
    parser makes of the answer of the service, whatever [max_results]. *)
Theorem one_recommendation_per_valid_entry :
  (forall (R : Type) raw block kv items (candidates : list R),
      _extract_json_block raw = Ok block ->
      json_loads block = Ok (JObj kv) ->
      dict_get kv "recommendations" (JArr []) = JArr items ->
      ((forall item e, In item items ->
                       parse_item repr_container candidates item <> Raises e) ->
       _parse_llm_response json_loads repr_container raw candidates
       = Ok (recommendations_of repr_container candidates items))
      /\ (forall out,
            Forall2 (fun item rec =>
                       exists idx why,
                         item = entry (Z.of_nat idx) why
                         /\ nth_error candidates idx = Some (restaurant rec)
                         /\ reason rec = strip why) items out ->
            _parse_llm_response json_loads repr_container raw candidates = Ok out
            /\ length out = length items)
      /\ (forall idx why c n,
            nth_error candidates idx = Some c ->
            items = repeat (entry (Z.of_nat idx) why) n ->
            _parse_llm_response json_loads repr_container raw candidates
            = Ok (repeat {| restaurant := c; reason := strip why |} n)))
  /\ (forall prefs mc mr (w : world F) cands raw_text,
        has_api_key w = true ->
        fst (run (candidates_of prefs mc) w) = Ok cands -> cands <> [] ->
        (forall rq, chat_result json_loads repr_container (post w rq) = Ok (JStr raw_text)) ->
        fst (run (pipeline prefs mc mr) w) = parse raw_text cands).
Proof.
  split.
  - intros R raw block kv items candidates Hx Hl Hi.
    pose proof (@parse_response_items _ raw block kv candidates Hx Hl) as Hp.
    rewrite Hi in Hp. cbn [py_iter rbind] in Hp.
    split; [|split].
    + intros Hn. rewrite Hp. now apply (@parse_items_total _ candidates items []).
    + intros out Hf. destruct (@recommendations_of_named _ candidates items out Hf) as [Ho Hn].
      split; [|symmetry; eapply Forall2_length; exact Hf].
      rewrite Hp, (@parse_items_total _ candidates items [] Hn), Ho. reflexivity.
    + intros idx why c n Hn ->. rewrite Hp.
      now rewrite (ParserFacts.parse_items_repeat repr_container candidates idx why n [] Hn).
  - intros prefs mc mr w cands raw_text Hk E Hne Hs.
    destruct (pipeline_with_key _ _ mr _ Hk E Hne) as [rq ->].
    simpl. now rewrite Hs.
Qed.

End WithFloat.

Section Ordered.
Context {F : Type} `{PyFloatOrder F}.
Variable regex : Type.
Variable re_compile : string -> result regex.
Variable re_search : regex -> string -> bool.
Variable log1p : F -> F.
Variable json_loads : string -> result (json F).
Variable repr_container : json F -> string.

Local Abbreviation candidates_of :=
  (get_recommendations re_compile re_search log1p).
Local Abbreviation pipeline :=
  (get_llm_recommendations re_compile re_search log1p json_loads repr_container).

(** C6 -- The ranking is stable and deterministic.  The records tied with
    a given record on the whole sort key stand in the output in the order
    they have in the input; the ranked candidates depend on the data file
    and the preferences only; and two runs of the full pipeline on the same
    data file, with the same preferences and bounds and the same answer of
    the reasoning service, return the same result (the credential being set
    in both or in neither). *)
Theorem ranking_stable_and_deterministic :
  (forall df N a out,
      rank_restaurants log1p df N = Ok out ->
      exists rest,
        List.filter (tied log1p a) (map to_restaurant df)
        = (List.filter (tied log1p a) out ++ rest)%list)
  /\ (forall prefs n (w1 w2 : world F),
        csv_rows w1 = csv_rows w2 ->
        fst (run (candidates_of prefs n) w1) = fst (run (candidates_of prefs n) w2))
  /\ (forall prefs mc mr (w1 w2 : world F) response,
        csv_rows w1 = csv_rows w2 ->
        has_api_key w1 = has_api_key w2 ->
        (forall rq, post w1 rq = response) ->
        (forall rq, post w2 rq = response) ->
        fst (run (pipeline prefs mc mr) w1) = fst (run (pipeline prefs mc mr) w2)).
Proof.
  assert (Hc : forall prefs n (w1 w2 : world F),
             csv_rows w1 = csv_rows w2 ->
             fst (run (candidates_of prefs n) w1) = fst (run (candidates_of prefs n) w2)).
  { intros prefs n w1 w2 Hcsv. unfold run.
    rewrite !get_recommendations_run. simpl. now rewrite Hcsv. }
  split; [|split].
  - intros df N a out. apply RankFacts.rank_stable.
  - exact Hc.
  - intros prefs mc mr w1 w2 response Hcsv Hkey Hp1 Hp2.
    specialize (Hc prefs mc w1 w2 Hcsv).
    pose proof (@pipeline_no_candidates F _ regex re_compile re_search log1p
                  json_loads repr_container prefs mc mr) as Hnone.
    pose proof (@pipeline_failed_retrieval F _ regex re_compile re_search log1p
                  json_loads repr_container prefs mc mr) as Hfail.
    pose proof (@pipeline_missing_key F _ regex re_compile re_search log1p
                  json_loads repr_container prefs mc mr) as Hmiss.
    pose proof (@pipeline_with_key F _ regex re_compile re_search log1p
                  json_loads repr_container prefs mc mr) as Hwith.
    destruct (fst (run (candidates_of prefs mc) w1)) as [[|c cs]|e] eqn:E1;
      symmetry in Hc.
    + now rewrite (Hnone w1 E1), (Hnone w2 Hc).
    + assert (Hne : c :: cs <> []) by discriminate.
      destruct (has_api_key w1) eqn:K1; symmetry in Hkey.
      * destruct (Hwith w1 _ K1 E1 Hne) as [rq1 ->].
        destruct (Hwith w2 _ Hkey Hc Hne) as [rq2 ->].
        simpl. now rewrite Hp1, Hp2.
      * now rewrite (Hmiss w1 _ K1 E1 Hne), (Hmiss w2 _ Hkey Hc Hne).
    + now rewrite (Hfail w1 _ E1), (Hfail w2 _ Hc).
Qed.

End Ordered.
End PipelineFacts.

(* ------------------------------------------------------------------ *)
(** ** The statements on concrete inputs *)

Module Runs.
Import XFloat XFloatFacts Samples PyNum Normalizer NormalizerSpec Retrieval RankSpec.
Import Recommender Client Pipeline PipelineSpec FilterSpec.

Local Abbreviation parse := (_parse_llm_response sample_loads sample_repr).
Local Abbreviation pipeline :=
  (get_llm_recommendations wild_compile wild_search sample_log1p sample_loads sample_repr).
Local Abbreviation engine := (get_recommendations wild_compile wild_search sample_log1p).

(** *** Normalizers *)

(** The scenario of the specification: [3.9/5], [1,200] and [500]. *)
Example normalize_row :
  _parse_rating (text_cell "3.9/5") = x_of_decimal false 39 (-1)
  /\ _parse_votes (text_cell "1,200") = 1200
  /\ _parse_price (text_cell "500") = x_of_decimal false 500 0.
Proof. repeat split; reflexivity. Qed.

Example parse_rating_defaults :
  map _parse_rating [text_cell "NEW"; text_cell "new"; text_cell " New "; text_cell "-";
                     text_cell ""; text_cell "good"; PNone; PFloat XNan; PInt 4]
  = repeat (zero (F := xfloat)) 9.
Proof. reflexivity. Qed.

(** C2 refuted -- the rating written [7.5/5] is 7.5, outside [0, 5]; the
    price written [-5] and the votes written [-3] are negative. *)
Lemma normalizers_out_of_range :
  _parse_rating (text_cell "7.5/5") = XFin (15 # 2)
  /\ in_0_5 (_parse_rating (text_cell "7.5/5")) = false
  /\ _parse_price (text_cell "-5") = XFin (-5 # 1)
  /\ fge (_parse_price (text_cell "-5")) zero = false
  /\ _parse_votes (text_cell "-3") = -3.
Proof. repeat split; reflexivity. Qed.

Lemma normalizers_total_unclamped_witness :
  _parse_rating (text_cell "12.5 /5") = x_of_decimal false 125 (-1)
  /\ _parse_price (text_cell " -1,200") = x_of_decimal true 1200 0
  /\ _parse_votes (text_cell "-1,200 ") = -1200
  /\ 0 <= _parse_votes (text_cell "1,200").
Proof.
  pose proof (RangeFacts.normalizers_total_unclamped (F := xfloat))
    as (_ & _ & _ & _ & Hr & Hp & Hv & Hu).
  split; [|split; [|split]].
  - exact (Hr false "1"%char "2" "5" " " "5" eq_refl eq_refl eq_refl eq_refl).
  - exact (Hp true "1200" " -1,200" eq_refl ltac:(discriminate) eq_refl).
  - refine (Hv true "1200" "-1,200 " eq_refl ltac:(discriminate) _ eq_refl).
    unfold max_str_digits. simpl. lia.
  - exact (Hu "1,200" eq_refl).
Defined.

(** C3 on the exact floats: the rating of [inf] differs from [0.0]. *)
Example parse_rating_inf_exact :
  _parse_rating (text_cell "inf") = XInf false
  /\ _parse_rating (text_cell "inf") <> zero.
Proof. split; [reflexivity | discriminate]. Qed.

(** *** Filter and ranker *)

Example filter_btm :
  filter_restaurants wild_compile wild_search (prepare sample_csv) btm_prefs
  = Ok (prepare [csv_spice; csv_twin]).
Proof. reflexivity. Qed.

(** The names of a ranking. *)
Local Abbreviation names_of :=
  (fun r : result (list (Restaurant xfloat)) => rbind r (fun out => Ok (map (@name xfloat) out))).

Example rank_btm :
  names_of (rank_restaurants sample_log1p (prepare sample_csv) 3)
  = Ok ["Spice Hut"; "Spice Hut Two"; "Noodle Bar"].
Proof. vm_compute. reflexivity. Qed.

(** C5 refuted -- with the bound [-1], [head(-1)] keeps all the lines but
    the last one: the ranking of the four lines has three entries, which is
    not [min(-1, 4)]. *)
Lemma rank_negative_bound :
  names_of (rank_restaurants sample_log1p (prepare sample_csv) (-1))
  = Ok ["Spice Hut"; "Spice Hut Two"; "Noodle Bar"]
  /\ rbind (rank_restaurants sample_log1p (prepare sample_csv) (-1))
           (fun out => Ok (Z.of_nat (length out)))
     <> Ok (Z.min (-1) (Z.of_nat (length (prepare sample_csv)))).
Proof. split; [vm_compute; reflexivity | vm_compute; discriminate]. Qed.

(** A vote count beyond the float range: the score cannot be computed and
    the ranking raises [OverflowError]. *)
Example rank_overflow :
  _parse_votes (col_votes csv_huge) = 10 ^ 402
  /\ rank_restaurants sample_log1p (prepare [csv_spice; csv_huge]) 5 = Raise OverflowError.
Proof. split; vm_compute; reflexivity. Qed.

(** The two lines tied on the whole key keep the order of the data file. *)
Example rank_keeps_ties_in_order :
  rbind (rank_restaurants sample_log1p (prepare sample_csv) 20)
        (fun out => Ok (List.filter (tied sample_log1p (to_restaurant (prepare_row csv_spice)))
                                    out))
  = Ok (map to_restaurant (prepare [csv_spice; csv_twin])).
Proof. vm_compute. reflexivity. Qed.

Lemma locality_dot_keeps_every_line_witness :
  filter_restaurants wild_compile wild_search (prepare [csv_spice]) dot_prefs
  = Ok (prepare [csv_spice])
  /\ contains "." (location_normalized (prepare_row csv_spice)) = false
  /\ ~ satisfies contains dot_prefs (prepare_row csv_spice).
Proof.
  exact (FilterFacts.locality_dot_keeps_every_line
           wild_compile wild_search (rx := ".") eq_refl eq_refl).
Defined.

Lemma sample_scores :
  Forall (fun r => exists s, score sample_log1p r = Ok s) (prepare sample_csv).
Proof. repeat constructor; eexists; vm_compute; reflexivity. Qed.

Lemma rank_sorted_and_bounded_witness :
  exists out,
    rank_restaurants sample_log1p (prepare sample_csv) 2 = Ok out
    /\ StronglySorted (ranked_before sample_log1p) out
    /\ length out = 2%nat.
Proof.
  destruct (proj1 (RankFacts.rank_sorted_and_bounded (H0 := xfloat_order)
                     sample_log1p (prepare sample_csv) 2) sample_scores)
    as (out & Hr & Hs & _ & Hl & _).
  exists out. split; [exact Hr|]. split; [exact Hs|]. apply Hl. lia.
Defined.

(** *** Parser *)

Lemma grounding_invariant_witness :
  Forall (grounded candidates)
         [ {| restaurant := cand_b; reason := "ok" |};
           {| restaurant := cand_b; reason := "again" |} ].
Proof.
  exact (proj1 (ParserFacts.grounding_invariant
                  sample_loads sample_repr text_out_of_range candidates)
               _ eq_refl).
Defined.

Lemma response_shape_error_witness :
  parse "I could not find a match." candidates = Raise no_json_object.
Proof.
  apply (proj1 (ParserFacts.response_shape_error
                  sample_loads sample_repr "I could not find a match." candidates)).
  left. reflexivity.
Defined.

Lemma overflow_index_fails_request_witness :
  parse text_overflow candidates = Raise OverflowError.
Proof.
  exact (@ParserFacts.overflow_index_fails_request
           xfloat _ sample_loads sample_repr _ text_overflow text_overflow
           (XInf false) [] [] candidates [] eq_refl eq_refl eq_refl eq_refl).
Defined.

(** The scenarios of the specification. *)
Example one_entry_one_candidate :
  parse text_one [cand_a] = Ok [ {| restaurant := cand_a; reason := "ok" |} ]
  /\ parse text_five [cand_a] = Ok [].
Proof. split; reflexivity. Qed.

(** The unit test of the repository. *)
Example test_parse_llm_response_basic :
  parse text_basic candidates
  = Ok [ {| restaurant := cand_a; reason := "Matches locality and budget." |};
         {| restaurant := cand_b; reason := "Backup option." |} ].
Proof. reflexivity. Qed.

(** *** Pipelines *)

Lemma credential_checked_before_network_witness :
  no_network (snd (run (pipeline btm_prefs 20 5) world_no_key))
  /\ fst (run (pipeline btm_prefs 20 5) world_no_key) = Raise config_error.
Proof.
  pose proof (PipelineFacts.credential_checked_before_network
                wild_compile wild_search sample_log1p sample_loads sample_repr
                btm_prefs 20 5 world_no_key eq_refl) as (Hn & _ & He & _).
  split; [exact Hn|]. apply (He _ eq_refl). discriminate.
Defined.

(** C9 refuted -- without the credential and with preferences that no
    restaurant satisfies, the pipeline returns the empty list: no
    configuration error is raised. *)
Lemma missing_key_without_candidates :
  has_api_key world_no_key = false
  /\ run (pipeline whitefield_prefs 20 5) world_no_key = (Ok [], [EvReadCsv])
  /\ fst (run (pipeline whitefield_prefs 20 5) world_no_key) <> Raise config_error.
Proof. split; [reflexivity | split; [reflexivity | discriminate]]. Qed.

Lemma one_recommendation_per_valid_entry_witness :
  parse text_repeated candidates
  = Ok [ {| restaurant := cand_a; reason := "one" |};
         {| restaurant := cand_a; reason := "two" |};
         {| restaurant := cand_a; reason := "three" |} ].
Proof.
  refine (proj1 (proj1 (proj2 (proj1 (PipelineFacts.one_recommendation_per_valid_entry
                                 wild_compile wild_search sample_log1p sample_loads sample_repr)
                          _ text_repeated text_repeated
                          [("recommendations",
                            JArr [entry 0 "one"; entry 0 "two"; entry 0 "three"])]
                          [entry 0 "one"; entry 0 "two"; entry 0 "three"]
                          candidates eq_refl eq_refl eq_refl)) _ _)).
  repeat constructor.
  - exists 0%nat, "one". repeat split.
  - exists 0%nat, "two". repeat split.
  - exists 0%nat, "three". repeat split.
Defined.

(** With [max_results = 1] and a response that names three valid indices,
    the pipeline returns three recommendations. *)
Example more_than_max_results :
  match fst (run (pipeline btm_prefs 20 1) world_ok) with
  | Ok out => map (fun r => (name (restaurant r), reason r)) out
              = [("Spice Hut", "one"); ("Spice Hut", "two"); ("Spice Hut", "three")]
  | Raise _ => False
  end.
Proof. vm_compute. reflexivity. Qed.

Lemma ranking_stable_and_deterministic_witness :
  fst (run (pipeline btm_prefs 20 5) world_ok)
  = fst (run (pipeline btm_prefs 20 5) world_other).
Proof.
  exact (proj2 (proj2 (PipelineFacts.ranking_stable_and_deterministic
                         (H0 := xfloat_order)
                         wild_compile wild_search sample_log1p sample_loads sample_repr))
               btm_prefs 20 5 world_ok world_other
               (Ok {| status_code := 200; text := envelope_text text_repeated |})
               eq_refl eq_refl (fun _ => eq_refl) (fun _ => eq_refl)).
Defined.

End Runs.
